(** * HelioStat: the GHI estimation and tilt-optimisation engine

    A shallow embedding of [main_solar_analysis.py] (class [SolarAnalysis])
    and the properties of its irradiance calculator, its brute-force tilt
    optimiser, the arrangement strategies and the sliding-window analyser.

    Numbers.  The irradiance columns, the angles and every GHI total are
    modelled as real numbers ([R], with the real [cos] and [PI]); month
    numbers, integer tilts and window sizes are integers ([Z]).  Rounding
    of IEEE doubles is outside this model: its statements are about the
    arithmetic the program denotes.  Where the order of the floating-point
    additions decides a property, module [IEEE] gives the calculator on
    binary64 numbers, with numpy's order of summation.

    Effects.  Methods of [SolarAnalysis] run in a small state-and-exception
    monad over the analyser object, so that "the call leaves the dataset
    unchanged" and "the call raises" are statements about the model and
    not consequences of its typing. *)

From Stdlib Require Import Reals Lra ZArith List String Ascii Lia Bool Finite.
From Stdlib Require Import Floats.
Import ListNotations.
Local Open Scope R_scope.

(* ------------------------------------------------------------------ *)
(** ** Python run-time: exceptions, methods, loops                      *)
(* ------------------------------------------------------------------ *)

Module Py.

Inductive Error : Type :=
| IndexError
| KeyError.

Inductive Result (A : Type) : Type :=
| Ok (a : A)
| Raise (e : Error).

Arguments Ok {A} a.
Arguments Raise {A} e.

(** A method of an object of class [S] returning an [A]. *)
Definition Method (S A : Type) : Type := S -> Result A * S.

Definition ret {S A : Type} (a : A) : Method S A :=
  fun self => (Ok a, self).

Definition raise {S A : Type} (e : Error) : Method S A :=
  fun self => (Raise e, self).

Definition bind {S A B : Type} (m : Method S A) (k : A -> Method S B)
  : Method S B :=
  fun self =>
    match m self with
    | (Ok a, self') => k a self'
    | (Raise e, self') => (Raise e, self')
    end.

(** Reading an attribute of [self]. *)
Definition attr {S A : Type} (f : S -> A) : Method S A :=
  fun self => (Ok (f self), self).

(** [for x in xs: body], the loop-carried variables being [st]. *)
Fixpoint for_in {S A St : Type} (xs : list A)
         (body : A -> St -> Method S St) (st : St) : Method S St :=
  match xs with
  | [] => ret st
  | x :: xs' => bind (body x st) (for_in xs' body)
  end.

(** [range(lo, hi)] on integers; empty when [hi <= lo]. *)
Definition range (lo hi : Z) : list Z :=
  map (fun k => (lo + Z.of_nat k)%Z) (seq 0 (Z.to_nat (hi - lo))).

(** [l[0]] and [l[-1]]: both raise [IndexError] on the empty list. *)
Definition getitem_first {S A : Type} (l : list A) : Method S A :=
  match l with
  | [] => raise IndexError
  | x :: _ => ret x
  end.

Definition getitem_last {S A : Type} (l : list A) : Method S A :=
  match l with
  | [] => raise IndexError
  | x :: l' => ret (last l' x)
  end.

(** [d[k]] on a dict given by its items: [KeyError] on a missing key. *)
Fixpoint dict_lookup {V : Type} (d : list (Z * V)) (k : Z) : option V :=
  match d with
  | [] => None
  | (k', v) :: d' => if (k' =? k)%Z then Some v else dict_lookup d' k
  end.

Definition dict_getitem {S V : Type} (d : list (Z * V)) (k : Z) : Method S V :=
  match dict_lookup d k with
  | Some v => ret v
  | None => raise KeyError
  end.

(** [str.capitalize()] on ASCII text: first character upper-cased, the
    others lower-cased. *)
Definition upper (c : ascii) : ascii :=
  let n := nat_of_ascii c in
  if (97 <=? n)%nat && (n <=? 122)%nat then ascii_of_nat (n - 32) else c.

Definition lower (c : ascii) : ascii :=
  let n := nat_of_ascii c in
  if (65 <=? n)%nat && (n <=? 90)%nat then ascii_of_nat (n + 32) else c.

Fixpoint lower_all (s : string) : string :=
  match s with
  | EmptyString => EmptyString
  | String c s' => String (lower c) (lower_all s')
  end.

Definition capitalize (s : string) : string :=
  match s with
  | EmptyString => EmptyString
  | String c s' => String (upper c) (lower_all s')
  end.

(** The value a call produced, [d] standing for a raised exception. *)
Definition value_or {S A : Type} (d : A) (out : Result A * S) : A :=
  match fst out with
  | Ok a => a
  | Raise _ => d
  end.

End Py.

Import Py.

Notation "x <- m ;; k" := (bind m (fun x => k))
  (at level 61, m at next level, right associativity).
Notation "' p <- m ;; k" := (bind m (fun x => match x with p => k end))
  (at level 61, p pattern, m at next level, right associativity).

(* ------------------------------------------------------------------ *)
(** ** numpy on one-dimensional arrays of reals                         *)
(* ------------------------------------------------------------------ *)

(** The comparisons [x == y] and [x > y] as booleans. *)
Definition Reqb (x y : R) : bool := if Req_dec_T x y then true else false.
Definition Rgtb (x y : R) : bool := if Rgt_dec x y then true else false.

Module np.

(** [np.radians]: degrees to radians. *)
Definition radians (x : R) : R := x * (PI / 180).

(** Element-wise binary operation on two arrays of the same length. *)
Fixpoint zip_with {A B C : Type} (f : A -> B -> C)
         (xs : list A) (ys : list B) : list C :=
  match xs, ys with
  | x :: xs', y :: ys' => f x y :: zip_with f xs' ys'
  | _, _ => []
  end.

(** [np.cos] on an array. *)
Definition cos (xs : list R) : list R := map Rtrigo_def.cos xs.

(** [np.where(cond, xs, y)] with a scalar else-branch. *)
Definition where_ (cond : list bool) (xs : list R) (y : R) : list R :=
  zip_with (fun (c : bool) x => if c then x else y) cond xs.

(** [np.sum] of an array; the sum of the empty array is [0]. *)
Definition sum (xs : list R) : R := fold_left Rplus xs 0.

End np.

(* ------------------------------------------------------------------ *)
(** ** The data model                                                   *)
(* ------------------------------------------------------------------ *)

(** One row of the prepared frame: the six numeric columns of the input
    table and the pre-computed declination in radians. *)
Record Row : Type := mkRow {
  Month : Z;
  DHI : R;
  DNI : R;
  Clearsky_DHI : R;
  Clearsky_DNI : R;
  Declination_Angle : R;
  Declination_Angle_Rad : R
}.

Definition DataFrame : Type := list Row.

(** One row of the table as read, after [pd.to_numeric(errors='coerce')]:
    a cell that does not parse as a number is missing. *)
Record CsvRow : Type := mkCsvRow {
  csv_Month : option Z;
  csv_DHI : option R;
  csv_DNI : option R;
  csv_Clearsky_DHI : option R;
  csv_Clearsky_DNI : option R;
  csv_Declination_Angle : option R
}.

(** What [pd.read_csv] did. *)
Inductive ReadCsv : Type :=
| FileNotFoundError
| OtherException
| Frame (rows : list CsvRow).

(** The analyser object: [self.csv_file_path] and [self.data]
    ([None] when loading failed). *)
Record SolarAnalysis : Type := mkSolarAnalysis {
  csv_file_path : string;
  data : option DataFrame
}.

(** One row of the frame [analyze_sliding_window] builds: the window name
    and the optimal tilt, under a column named after the sky condition. *)
Record WindowRow : Type := mkWindowRow {
  Window : string;
  Optimal_Tilt_column : string;
  Optimal_Tilt : Z
}.

(* ------------------------------------------------------------------ *)
(** ** class SolarAnalysis                                              *)
(* ------------------------------------------------------------------ *)

Definition LATITUDE_DEGREES : R := 29651949 / 1000000.
Definition LATITUDE_RADIANS : R := np.radians LATITUDE_DEGREES.
Definition EARTH_AXIAL_TILT : R := 2345 / 100.

Definition WINTER_MONTHS : list Z := [10; 11; 12; 1; 2; 3]%Z.
Definition SUMMER_MONTHS : list Z := [4; 5; 6; 7; 8; 9]%Z.

(** [df.dropna(subset=numeric_cols)] followed by the new column
    ['Declination Angle Rad']. *)
Definition prepare_row (c : CsvRow) : option Row :=
  match csv_Month c, csv_DHI c, csv_DNI c,
        csv_Clearsky_DHI c, csv_Clearsky_DNI c, csv_Declination_Angle c with
  | Some m, Some dhi, Some dni, Some cdhi, Some cdni, Some decl =>
      Some (mkRow m dhi dni cdhi cdni decl (np.radians decl))
  | _, _, _, _, _, _ => None
  end.

Fixpoint prepare_rows (rows : list CsvRow) : DataFrame :=
  match rows with
  | [] => []
  | c :: rows' =>
      match prepare_row c with
      | Some r => r :: prepare_rows rows'
      | None => prepare_rows rows'
      end
  end.

Definition _load_and_prepare_data (read : ReadCsv) : option DataFrame :=
  match read with
  | Frame rows => Some (prepare_rows rows)
  | FileNotFoundError => None
  | OtherException => None
  end.

(** [SolarAnalysis(csv_file_path)], given what reading that file does. *)
Definition __init__ (path : string) (read : ReadCsv) : SolarAnalysis :=
  mkSolarAnalysis path (_load_and_prepare_data read).

(** [series.isin(months)]. *)
Definition isin (m : Z) (months : list Z) : bool :=
  existsb (fun m' => (m =? m')%Z) months.

Definition calculate_ghi_for_tilt
  (tilt_degrees : R) (months : list Z) (sky_condition : string)
  : Method SolarAnalysis R :=
  self_data <- attr data ;;
  match self_data with
  | None => ret 0
  | Some df =>
      let dhi_col :=
        if (sky_condition =? "cloudy")%string then DHI else Clearsky_DHI in
      let dni_col :=
        if (sky_condition =? "cloudy")%string then DNI else Clearsky_DNI in
      let df_period := filter (fun r => isin (Month r) months) df in
      let df_period :=
        filter (fun r => negb (Reqb (dhi_col r) 0 && Reqb (dni_col r) 0))
               df_period in
      match df_period with
      | [] => ret 0
      | _ :: _ =>
          let panel_tilt_rad := np.radians tilt_degrees in
          let declination_rad := map Declination_Angle_Rad df_period in
          let dhi := map dhi_col df_period in
          let dni := map dni_col df_period in
          let theta_angle_rad :=
            map (fun d => LATITUDE_RADIANS - panel_tilt_rad - d)
                declination_rad in
          let cos_theta := np.cos theta_angle_rad in
          let dni_contribution :=
            np.where_ (map (fun c => Rgtb c 0) cos_theta)
                      (np.zip_with Rmult cos_theta dni) 0 in
          let ghi_output := np.zip_with Rplus dhi dni_contribution in
          ret (np.sum ghi_output)
      end
  end.

Definition find_optimal_tilt (months : list Z) (sky_condition : string)
  : Method SolarAnalysis (Z * R) :=
  let max_ghi := -1 in
  let best_tilt := (-1)%Z in
  '(max_ghi, best_tilt) <-
     for_in (range 0 91)
       (fun tilt '(max_ghi, best_tilt) =>
          ghi <- calculate_ghi_for_tilt (IZR tilt) months sky_condition ;;
          if Rgtb ghi max_ghi then ret (ghi, tilt)
          else ret (max_ghi, best_tilt))
       (max_ghi, best_tilt) ;;
  ret (best_tilt, max_ghi).

(** *** Arrangement analyses *)

Definition analyze_arrangement_1 (sky_condition : string)
  : Method SolarAnalysis R :=
  calculate_ghi_for_tilt 0 (range 1 13) sky_condition.

Definition analyze_arrangement_2 (sky_condition : string)
  : Method SolarAnalysis R :=
  calculate_ghi_for_tilt LATITUDE_DEGREES (range 1 13) sky_condition.

Definition analyze_arrangement_3 (sky_condition : string)
  : Method SolarAnalysis R :=
  let adjustment := EARTH_AXIAL_TILT / 2 in
  let summer_tilt := LATITUDE_DEGREES - adjustment in
  let winter_tilt := LATITUDE_DEGREES + adjustment in
  ghi_summer <- calculate_ghi_for_tilt summer_tilt SUMMER_MONTHS sky_condition ;;
  ghi_winter <- calculate_ghi_for_tilt winter_tilt WINTER_MONTHS sky_condition ;;
  ret (ghi_summer + ghi_winter).

Definition analyze_arrangement_4 (sky_condition : string)
  : Method SolarAnalysis R :=
  for_in (range 1 13)
    (fun month total_ghi =>
       '(_, max_ghi) <- find_optimal_tilt [month] sky_condition ;;
       ret (total_ghi + max_ghi))
    0.

Definition analyze_arrangement_5 (sky_condition : string)
  : Method SolarAnalysis R :=
  '(_, ghi_summer) <- find_optimal_tilt SUMMER_MONTHS sky_condition ;;
  '(_, ghi_winter) <- find_optimal_tilt WINTER_MONTHS sky_condition ;;
  ret (ghi_summer + ghi_winter).

Definition analyze_arrangement_6 (sky_condition : string)
  : Method SolarAnalysis R :=
  '(_, max_ghi) <- find_optimal_tilt (range 1 13) sky_condition ;;
  ret max_ghi.

(** *** Sliding-window analysis *)

Definition month_names : list (Z * string) :=
  [ (1, "Jan"); (2, "Feb"); (3, "Mar"); (4, "Apr"); (5, "May"); (6, "Jun");
    (7, "Jul"); (8, "Aug"); (9, "Sep"); (10, "Oct"); (11, "Nov");
    (12, "Dec") ]%Z%string.

Definition months_in_window (i window_size : Z) : list Z :=
  map (fun m => ((m - 1) mod 12 + 1)%Z) (range i (i + window_size)).

Definition analyze_sliding_window (window_size : Z) (sky_condition : string)
  : Method SolarAnalysis (list WindowRow) :=
  for_in (range 1 13)
    (fun i results =>
       let months_in_window := months_in_window i window_size in
       first_month <- getitem_first months_in_window ;;
       start_month_name <- dict_getitem month_names first_month ;;
       last_month <- getitem_last months_in_window ;;
       end_month_name <- dict_getitem month_names last_month ;;
       let window_name :=
         (start_month_name ++ "-" ++ end_month_name)%string in
       '(best_tilt, _) <- find_optimal_tilt months_in_window sky_condition ;;
       ret (results ++
            [mkWindowRow window_name
               ("Optimal Tilt (" ++ capitalize sky_condition ++ ")")%string
               best_tilt]))
    [].

(* ------------------------------------------------------------------ *)
(** ** Values of the calls, and the views used to state the properties  *)
(* ------------------------------------------------------------------ *)

(** The number [calculate_ghi_for_tilt] returns on [self]. *)
Definition ghi (self : SolarAnalysis)
           (tilt_degrees : R) (months : list Z) (sky_condition : string) : R :=
  value_or 0 (calculate_ghi_for_tilt tilt_degrees months sky_condition self).

(** The pair [(best_tilt, max_ghi)] that [find_optimal_tilt] returns. *)
Definition optimum (self : SolarAnalysis)
           (months : list Z) (sky_condition : string) : Z * R :=
  value_or (0%Z, 0) (find_optimal_tilt months sky_condition self).

(** The entry of [ghi_output] that one row of [df_period] produces. *)
Definition row_output (tilt_degrees : R) (sky_condition : string) (r : Row) : R :=
  let dhi_col :=
    if (sky_condition =? "cloudy")%string then DHI else Clearsky_DHI in
  let dni_col :=
    if (sky_condition =? "cloudy")%string then DNI else Clearsky_DNI in
  let cos_theta :=
    Rtrigo_def.cos
      (LATITUDE_RADIANS - np.radians tilt_degrees - Declination_Angle_Rad r) in
  dhi_col r + (if Rgtb cos_theta 0 then cos_theta * dni_col r else 0).

(** The night-hour test of the second filter. *)
Definition zero_radiation (sky_condition : string) (r : Row) : bool :=
  let dhi_col :=
    if (sky_condition =? "cloudy")%string then DHI else Clearsky_DHI in
  let dni_col :=
    if (sky_condition =? "cloudy")%string then DNI else Clearsky_DNI in
  Reqb (dhi_col r) 0 && Reqb (dni_col r) 0.

(** Sum of [f] over a list, written as a right fold. *)
Fixpoint sum_over {A : Type} (f : A -> R) (l : list A) : R :=
  match l with
  | [] => 0
  | x :: l' => f x + sum_over f l'
  end.

(** One iteration of the search loop of [find_optimal_tilt], for a
    candidate whose GHI is [f tilt]. *)
Definition improve (f : Z -> R) (st : R * Z) (tilt : Z) : R * Z :=
  let '(max_ghi, best_tilt) := st in
  if Rgtb (f tilt) max_ghi then (f tilt, tilt) else (max_ghi, best_tilt).

(** The whole loop over a list of candidates, from the initial incumbent. *)
Definition scan (f : Z -> R) (tilts : list Z) : R * Z :=
  fold_left (improve f) tilts (-1, (-1)%Z).

(** The row of the result frame for the window that starts at month [i]. *)
Definition window_row (self : SolarAnalysis)
           (window_size : Z) (sky_condition : string) (i : Z) : WindowRow :=
  let months := months_in_window i window_size in
  mkWindowRow
    (match dict_lookup month_names (hd 0%Z months),
           dict_lookup month_names (last months 0%Z) with
     | Some a, Some b => a ++ "-" ++ b
     | _, _ => ""
     end)%string
    ("Optimal Tilt (" ++ capitalize sky_condition ++ ")")%string
    (fst (optimum self months sky_condition)).

(** Every irradiance cell of the frame is non-negative. *)
Definition nonneg_row (r : Row) : Prop :=
  0 <= DHI r /\ 0 <= DNI r /\ 0 <= Clearsky_DHI r /\ 0 <= Clearsky_DNI r.

(** *** The contract, in the words of the design document *)

Module Spec.

Inductive SkyCondition : Type := cloudy | clear.

(** The string by which the program names a sky condition. *)
Definition sky_name (sky : SkyCondition) : string :=
  match sky with
  | cloudy => "cloudy"
  | clear => "clear"
  end.

Definition diffuseIrradiance (sky : SkyCondition) (r : Row) : R :=
  match sky with
  | cloudy => DHI r
  | clear => Clearsky_DHI r
  end.

Definition directIrradiance (sky : SkyCondition) (r : Row) : R :=
  match sky with
  | cloudy => DNI r
  | clear => Clearsky_DNI r
  end.

(** [theta = latitudeRadians - tiltRadians - declinationRadians]. *)
Definition theta (tiltDegrees : R) (r : Row) : R :=
  LATITUDE_RADIANS - np.radians tiltDegrees - Declination_Angle_Rad r.

(** [cos(theta) * directIrradiance] only when [cos(theta) > 0]. *)
Definition directContribution
           (tiltDegrees : R) (sky : SkyCondition) (r : Row) : R :=
  if Rgt_dec (Rtrigo_def.cos (theta tiltDegrees r)) 0
  then Rtrigo_def.cos (theta tiltDegrees r) * directIrradiance sky r
  else 0.

(** The sum, over the records whose month lies in [months], of
    diffuse irradiance plus direct contribution. *)
Definition computeGHI (dataset : DataFrame)
           (tiltDegrees : R) (months : list Z) (sky : SkyCondition) : R :=
  sum_over
    (fun r => diffuseIrradiance sky r + directContribution tiltDegrees sky r)
    (filter (fun r => isin (Month r) months) dataset).

(** The variant of the calculator that keeps every month-filtered record:
    no exclusion of the hours whose two irradiance fields are zero. *)
Definition computeGHI_unfiltered
           (tilt_degrees : R) (months : list Z) (sky_condition : string)
  : Method SolarAnalysis R :=
  self_data <- attr data ;;
  match self_data with
  | None => ret 0
  | Some df =>
      let dhi_col :=
        if (sky_condition =? "cloudy")%string then DHI else Clearsky_DHI in
      let dni_col :=
        if (sky_condition =? "cloudy")%string then DNI else Clearsky_DNI in
      let df_period := filter (fun r => isin (Month r) months) df in
      match df_period with
      | [] => ret 0
      | _ :: _ =>
          let cos_theta :=
            np.cos (map (fun d => LATITUDE_RADIANS - np.radians tilt_degrees - d)
                        (map Declination_Angle_Rad df_period)) in
          ret (np.sum
                 (np.zip_with Rplus (map dhi_col df_period)
                    (np.where_ (map (fun c => Rgtb c 0) cos_theta)
                       (np.zip_with Rmult cos_theta (map dni_col df_period))
                       0)))
      end
  end.

(** Window [i] covers months [((i + k - 1) mod 12) + 1] for [k] in
    [0..W-1]. *)
Definition window (W i : Z) : list Z :=
  map (fun k => ((i + k - 1) mod 12 + 1)%Z) (range 0 W).

(** Short name of a calendar month. *)
Definition short_name (m : Z) : string :=
  nth (Z.to_nat (m - 1))
      ["Jan"; "Feb"; "Mar"; "Apr"; "May"; "Jun";
       "Jul"; "Aug"; "Sep"; "Oct"; "Nov"; "Dec"]%string
      ""%string.

(** The label of a window: first and last month's short names. *)
Definition label (months : list Z) : string :=
  (short_name (hd 0%Z months) ++ "-" ++ short_name (last months 0%Z))%string.

End Spec.

(* ------------------------------------------------------------------ *)
(** ** The contracts of the optimiser, the arrangements and the windows *)
(* ------------------------------------------------------------------ *)

(** No record qualifies for the period: whatever is left by the month
    filter is removed by the zero-radiation filter ([df_period.empty]).
    A month list that matches no record is the main instance. *)
Definition no_qualifying_record
           (self : SolarAnalysis) (months : list Z) (sky_condition : string)
  : Prop :=
  forall df, data self = Some df ->
    filter (fun r => negb (zero_radiation sky_condition r))
           (filter (fun r => isin (Month r) months) df) = [].

(** [find_optimal_tilt] returns [(bt, mg)] where [bt] is the smallest of
    the 91 integer tilts [0..90] whose GHI is the maximum over those
    candidates, and [mg] is that maximum. *)
Definition returns_smallest_argmax
           (self : SolarAnalysis) (months : list Z) (sky_condition : string)
  : Prop :=
  exists (bt : Z) (mg : R),
    find_optimal_tilt months sky_condition self = (Ok (bt, mg), self)
    /\ (0 <= bt <= 90)%Z
    /\ calculate_ghi_for_tilt (IZR bt) months sky_condition self
       = (Ok mg, self)
    /\ (forall t, (0 <= t <= 90)%Z ->
          ghi self (IZR t) months sky_condition <= mg)
    /\ (forall t, (0 <= t < bt)%Z ->
          ghi self (IZR t) months sky_condition < mg).

(** Some candidate tilt beats the initial incumbent [-1]. *)
Definition some_candidate_beats_incumbent
           (self : SolarAnalysis) (months : list Z) (sky_condition : string)
  : Prop :=
  exists t, (0 <= t <= 90)%Z /\ ghi self (IZR t) months sky_condition > -1.

(** Arrangement 4's total is at least Arrangement 6's. *)
Definition monthly_dominates_annual
           (self : SolarAnalysis) (sky_condition : string) : Prop :=
  exists (total_4 total_6 : R),
    analyze_arrangement_4 sky_condition self = (Ok total_4, self)
    /\ analyze_arrangement_6 sky_condition self = (Ok total_6, self)
    /\ total_4 >= total_6.

(** Some candidate tilt has a whole-year GHI of at least [-1]. *)
Definition annual_ghi_reaches_sentinel
           (self : SolarAnalysis) (sky_condition : string) : Prop :=
  exists t, (0 <= t <= 90)%Z
            /\ ghi self (IZR t) (range 1 13) sky_condition >= -1.

(** The sliding-window analyser, for window size [W]: it returns twelve
    rows, in ascending start month; row [i] is labelled with the short
    names of the first and last month of [Spec.window W i] and carries
    the tilt [find_optimal_tilt] returns for exactly those months. *)
Definition sliding_window_contract
           (self : SolarAnalysis) (W : Z) (sky_condition : string) : Prop :=
  exists rows : list WindowRow,
    analyze_sliding_window W sky_condition self = (Ok rows, self)
    /\ List.length rows = 12%nat
    /\ forall i, (1 <= i <= 12)%Z ->
         exists row max_ghi,
           nth_error rows (Z.to_nat (i - 1)) = Some row
           /\ months_in_window i W = Spec.window W i
           /\ Window row = Spec.label (Spec.window W i)
           /\ find_optimal_tilt (Spec.window W i) sky_condition self
              = (Ok (Optimal_Tilt row, max_ghi), self).

(* ------------------------------------------------------------------ *)
(** ** Concrete analysers used in the examples                          *)
(* ------------------------------------------------------------------ *)

(** A frame with a single January hour whose every irradiance is [x]
    diffuse and [0] direct. *)
Definition january_hour (x : R) : Row := mkRow 1 x 0 x 0 0 0.

Definition analyser_of (df : DataFrame) : SolarAnalysis :=
  mkSolarAnalysis "data.csv" (Some df).

(** One sunny January hour. *)
Definition sunny : SolarAnalysis := analyser_of [january_hour 3].

(** One January hour with a reading of [-5]: every candidate tilt has a
    GHI of [-5]. *)
Definition below_sentinel : SolarAnalysis := analyser_of [january_hour (-5)].

(** A January and a February hour, both reading [-5]. *)
Definition two_months_below : SolarAnalysis :=
  analyser_of [mkRow 1 (-5) 0 (-5) 0 0 0; mkRow 2 (-5) 0 (-5) 0 0 0].

(* ------------------------------------------------------------------ *)
(** ** generate_visualizations.py: the tables behind the charts         *)
(* ------------------------------------------------------------------ *)

(** [[f(x) for x in xs]] where [f] calls methods of the analyser. *)
Definition list_comp {S A B : Type} (xs : list A) (f : A -> Method S B)
  : Method S (list B) :=
  for_in xs (fun x acc => y <- f x ;; ret (acc ++ [y])) [].

(** [l[i]] for a non-negative index: [IndexError] past the end. *)
Definition getitem {S A : Type} (l : list A) (i : nat) : Method S A :=
  match nth_error l i with
  | Some x => ret x
  | None => raise IndexError
  end.

(** [enumerate(l)]. *)
Definition enumerate {A : Type} (l : list A) : list (nat * A) :=
  combine (seq 0 (List.length l)) l.

(** [series.cumsum()]: the running totals. *)
Fixpoint cumsum_from (acc : R) (xs : list R) : list R :=
  match xs with
  | [] => []
  | x :: xs' => (acc + x) :: cumsum_from (acc + x) xs'
  end.

Definition cumsum (xs : list R) : list R := cumsum_from 0 xs.

Module Viz.

(** One row of the frame [get_monthly_ghi_data] returns: the index
    ["Month"] and the six arrangement columns. *)
Record MonthlyRow : Type := mkMonthlyRow {
  Month_name : string;
  Arr_1 : R;
  Arr_2 : R;
  Arr_3 : R;
  Arr_4 : R;
  Arr_5 : R;
  Arr_6 : R
}.

Definition month_names : list string :=
  ["Jan"; "Feb"; "Mar"; "Apr"; "May"; "Jun";
   "Jul"; "Aug"; "Sep"; "Oct"; "Nov"; "Dec"]%string.

(** The tilt each of the optimised arrangements uses in month [m], as
    computed at the head of [get_monthly_ghi_data] and of
    [plot_tilt_strategies]. *)
Definition monthly_tilts_arr4 (sky_condition : string)
  : Method SolarAnalysis (list Z) :=
  list_comp (range 1 13)
    (fun m => ' (t, _) <- find_optimal_tilt [m] sky_condition ;; ret t).

Definition monthly_tilts_arr5 (opt_tilt_summer opt_tilt_winter : Z) : list Z :=
  map (fun m => if isin m SUMMER_MONTHS then opt_tilt_summer
                else opt_tilt_winter)
      (range 1 13).

Definition get_monthly_ghi_data (sky_condition : string)
  : Method SolarAnalysis (list MonthlyRow) :=
  monthly_tilts_arr4 <- monthly_tilts_arr4 sky_condition ;;
  ' (opt_tilt_summer, _) <- find_optimal_tilt SUMMER_MONTHS sky_condition ;;
  ' (opt_tilt_winter, _) <- find_optimal_tilt WINTER_MONTHS sky_condition ;;
  let monthly_tilts_arr5 :=
    monthly_tilts_arr5 opt_tilt_summer opt_tilt_winter in
  ' (opt_tilt_annual, _) <- find_optimal_tilt (range 1 13) sky_condition ;;
  for_in (enumerate month_names)
    (fun ' (i, month_name) data =>
       let month_num := (Z.of_nat i + 1)%Z in
       let adjustment := EARTH_AXIAL_TILT / 2 in
       a1 <- calculate_ghi_for_tilt 0 [month_num] sky_condition ;;
       a2 <- calculate_ghi_for_tilt LATITUDE_DEGREES [month_num]
                                    sky_condition ;;
       let tilt_arr3 :=
         if isin month_num SUMMER_MONTHS
         then LATITUDE_DEGREES - adjustment
         else LATITUDE_DEGREES + adjustment in
       a3 <- calculate_ghi_for_tilt tilt_arr3 [month_num] sky_condition ;;
       t4 <- getitem monthly_tilts_arr4 i ;;
       a4 <- calculate_ghi_for_tilt (IZR t4) [month_num] sky_condition ;;
       t5 <- getitem monthly_tilts_arr5 i ;;
       a5 <- calculate_ghi_for_tilt (IZR t5) [month_num] sky_condition ;;
       a6 <- calculate_ghi_for_tilt (IZR opt_tilt_annual) [month_num]
                                    sky_condition ;;
       ret (data ++ [mkMonthlyRow month_name a1 a2 a3 a4 a5 a6]))
    [].

(** The dict [tilts] that [plot_tilt_strategies] builds before it draws:
    twelve tilts per arrangement (integers where the code has integers). *)
Record TiltStrategies : Type := mkTiltStrategies {
  tilts_arr1 : list Z;
  tilts_arr2 : list R;
  tilts_arr3 : list R;
  tilts_arr4 : list Z;
  tilts_arr5 : list Z;
  tilts_arr6 : list Z
}.

Definition plot_tilt_strategies_tilts (sky_condition : string)
  : Method SolarAnalysis TiltStrategies :=
  let months := range 1 13 in
  let arr1 := repeat 0%Z 12 in
  let arr2 := repeat LATITUDE_DEGREES 12 in
  let adjustment := EARTH_AXIAL_TILT / 2 in
  let arr3 :=
    map (fun m => if isin m SUMMER_MONTHS
                  then LATITUDE_DEGREES - adjustment
                  else LATITUDE_DEGREES + adjustment) months in
  arr4 <- list_comp months
            (fun m => ' (t, _) <- find_optimal_tilt [m] sky_condition ;;
                      ret t) ;;
  ' (opt_tilt_summer, _) <- find_optimal_tilt SUMMER_MONTHS sky_condition ;;
  ' (opt_tilt_winter, _) <- find_optimal_tilt WINTER_MONTHS sky_condition ;;
  let arr5 :=
    map (fun m => if isin m SUMMER_MONTHS then opt_tilt_summer
                  else opt_tilt_winter) months in
  ' (opt_tilt_annual, _) <- find_optimal_tilt months sky_condition ;;
  let arr6 := repeat opt_tilt_annual 12 in
  ret (mkTiltStrategies arr1 arr2 arr3 arr4 arr5 arr6).

(** [monthly_df[name]]: the column of that name; [KeyError] for any other
    name (the index ["Month"] is not a column). *)
Definition column_of (name : string) : option (MonthlyRow -> R) :=
  if (name =? "Arr 1: 0° Fixed")%string then Some Arr_1
  else if (name =? "Arr 2: 29° Fixed")%string then Some Arr_2
  else if (name =? "Arr 3: Two-Season Fixed")%string then Some Arr_3
  else if (name =? "Arr 4: Monthly Optimal")%string then Some Arr_4
  else if (name =? "Arr 5: Two-Season Optimal")%string then Some Arr_5
  else if (name =? "Arr 6: Annual Optimal")%string then Some Arr_6
  else None.

Definition getitem_column {S : Type} (monthly_df : list MonthlyRow)
           (name : string) : Method S (list R) :=
  match column_of name with
  | Some col => ret (map col monthly_df)
  | None => raise KeyError
  end.

(** The series [gain] that [plot_cumulative_gain] draws. *)
Definition plot_cumulative_gain_series {S : Type}
           (monthly_df : list MonthlyRow)
           (base_arr optimized_arr : string) : Method S (list R) :=
  optimized <- getitem_column monthly_df optimized_arr ;;
  base <- getitem_column monthly_df base_arr ;;
  ret (cumsum (np.zip_with Rminus optimized base)).

End Viz.

(** *** Values and views for the added code *)

(** The number each arrangement analysis returns on [self]. *)
Definition arrangement_total
           (analyze : string -> Method SolarAnalysis R)
           (self : SolarAnalysis) (sky_condition : string) : R :=
  value_or 0 (analyze sky_condition self).

(** The cells [dhi_col] and [dni_col] select in a row. *)
Definition selected_dhi (sky_condition : string) (r : Row) : R :=
  (if (sky_condition =? "cloudy")%string then DHI else Clearsky_DHI) r.

Definition selected_dni (sky_condition : string) (r : Row) : R :=
  (if (sky_condition =? "cloudy")%string then DNI else Clearsky_DNI) r.

(** The selected direct-irradiance column is non-negative on every row. *)
Definition nonneg_direct (sky_condition : string) (df : DataFrame) : Prop :=
  forall r, In r df -> 0 <= selected_dni sky_condition r.

(** A CSV row with a cell that did not parse. *)
Definition has_missing_cell (c : CsvRow) : Prop :=
  csv_Month c = None \/ csv_DHI c = None \/ csv_DNI c = None
  \/ csv_Clearsky_DHI c = None \/ csv_Clearsky_DNI c = None
  \/ csv_Declination_Angle c = None.

(** The analyser holds a loaded frame whose irradiance cells are all
    non-negative. *)
Definition nonneg_data (self : SolarAnalysis) : Prop :=
  forall df, data self = Some df -> Forall nonneg_row df.

(** The row of the monthly table for month [m], as a view. *)
Definition monthly_row (self : SolarAnalysis) (sky_condition : string)
           (m : Z) : Viz.MonthlyRow :=
  let adjustment := EARTH_AXIAL_TILT / 2 in
  Viz.mkMonthlyRow
    (nth (Z.to_nat (m - 1)) Viz.month_names ""%string)
    (ghi self 0 [m] sky_condition)
    (ghi self LATITUDE_DEGREES [m] sky_condition)
    (ghi self (if isin m SUMMER_MONTHS then LATITUDE_DEGREES - adjustment
               else LATITUDE_DEGREES + adjustment) [m] sky_condition)
    (ghi self (IZR (fst (optimum self [m] sky_condition))) [m] sky_condition)
    (ghi self
         (IZR (if isin m SUMMER_MONTHS
               then fst (optimum self SUMMER_MONTHS sky_condition)
               else fst (optimum self WINTER_MONTHS sky_condition)))
         [m] sky_condition)
    (ghi self (IZR (fst (optimum self (range 1 13) sky_condition)))
         [m] sky_condition).

(** A sorted-ness view of a series: each entry is at least the previous. *)
Fixpoint nondecreasing_from (prev : R) (xs : list R) : Prop :=
  match xs with
  | [] => True
  | x :: xs' => prev <= x /\ nondecreasing_from x xs'
  end.

(** A frame with a sunny January hour and a sunny July hour, with direct
    irradiance. *)
Definition two_seasons : SolarAnalysis :=
  analyser_of [mkRow 1 3 7 4 9 (-20) (np.radians (-20));
               mkRow 7 5 8 6 10 20 (np.radians 20)].

(** A CSV row that parsed whole, and one whose [DHI] cell did not. *)
Definition complete_csv_row : CsvRow :=
  mkCsvRow (Some 1%Z) (Some 3) (Some 0) (Some 3) (Some 0) (Some 0).

Definition broken_csv_row : CsvRow :=
  mkCsvRow (Some 1%Z) None (Some 0) (Some 3) (Some 0) (Some 0).

(** An analyser whose file was not found. *)
Definition not_loaded : SolarAnalysis :=
  __init__ "missing.csv" FileNotFoundError.

(* ------------------------------------------------------------------ *)
(** ** The calculator on IEEE doubles                                   *)
(* ------------------------------------------------------------------ *)

(** The calculator once more, with the numbers as the program has them:
    binary64 floats and their rounded operations.  The cosine of the C
    library is a parameter, [libm_cos]; [np.sum] adds a contiguous array
    of doubles in numpy's pairwise order.  This view is used where the
    order of the additions decides a property. *)

#[local] Set Warnings "-inexact-float".

Module IEEE.

Record Row : Type := mkRow {
  Month : Z;
  DHI : float;
  DNI : float;
  Clearsky_DHI : float;
  Clearsky_DNI : float;
  Declination_Angle : float;
  Declination_Angle_Rad : float
}.

(** [np.radians]: [x * (pi / 180)]. *)
Definition radians (x : float) : float :=
  (x * (3.141592653589793 / 180))%float.

(** [res += a[i]] along an array. *)
Fixpoint add_each (res : float) (a : list float) : float :=
  match a with
  | [] => res
  | x :: a' => add_each (res + x)%float a'
  end.

(** The eight partial sums of numpy's unrolled loop, combined. *)
Definition combine_lanes (r : list float) : float :=
  match r with
  | [r0; r1; r2; r3; r4; r5; r6; r7] =>
      (((r0 + r1) + (r2 + r3)) + ((r4 + r5) + (r6 + r7)))%float
  | _ => 0%float
  end.

(** [r[j] += a[i + j]] for each further whole block of eight. *)
Fixpoint accumulate_blocks (blocks : nat) (r a : list float)
  : list float * list float :=
  match blocks with
  | O => (r, a)
  | S blocks' =>
      accumulate_blocks blocks'
        (np.zip_with PrimFloat.add r (firstn 8 a)) (skipn 8 a)
  end.

(** numpy's pairwise summation of [n] doubles: a plain loop below eight
    elements, eight interleaved partial sums up to 128 elements, and a
    split in two halves above. *)
Fixpoint pairwise_sum (fuel : nat) (a : list float) : float :=
  let n := List.length a in
  if (n <? 8)%nat then add_each 0%float a
  else if (n <=? 128)%nat then
    let '(r, rest) :=
      accumulate_blocks (n / 8 - 1) (firstn 8 a) (skipn 8 a) in
    add_each (combine_lanes r) rest
  else
    match fuel with
    | O => 0%float
    | S fuel' =>
        let n2 := (n / 2)%nat in
        let n2 := (n2 - n2 mod 8)%nat in
        (pairwise_sum fuel' (firstn n2 a)
         + pairwise_sum fuel' (skipn n2 a))%float
    end.

(** [np.sum] of an array of doubles: the identity [0.0] plus the
    pairwise sum of the elements. *)
Definition sum (a : list float) : float :=
  (0 + pairwise_sum (List.length a) a)%float.

Definition LATITUDE_DEGREES : float := 29.651949%float.
Definition LATITUDE_RADIANS : float := radians LATITUDE_DEGREES.

Definition calculate_ghi_for_tilt
           (libm_cos : float -> float) (self_data : option (list Row))
           (tilt_degrees : float) (months : list Z) (sky_condition : string)
  : float :=
  match self_data with
  | None => 0%float
  | Some df =>
      let dhi_col :=
        if (sky_condition =? "cloudy")%string then DHI else Clearsky_DHI in
      let dni_col :=
        if (sky_condition =? "cloudy")%string then DNI else Clearsky_DNI in
      let df_period := filter (fun r => isin (Month r) months) df in
      let df_period :=
        filter (fun r => negb ((dhi_col r =? 0)%float && (dni_col r =? 0)%float))
               df_period in
      match df_period with
      | [] => 0%float
      | _ :: _ =>
          let panel_tilt_rad := radians tilt_degrees in
          let declination_rad := map Declination_Angle_Rad df_period in
          let dhi := map dhi_col df_period in
          let dni := map dni_col df_period in
          let theta_angle_rad :=
            map (fun d => (LATITUDE_RADIANS - panel_tilt_rad - d)%float)
                declination_rad in
          let cos_theta := map libm_cos theta_angle_rad in
          let dni_contribution :=
            np.zip_with (fun (c : bool) x => if c then x else 0%float)
                        (map (fun c => (0 <? c)%float) cos_theta)
                        (np.zip_with PrimFloat.mul cos_theta dni) in
          let ghi_output := np.zip_with PrimFloat.add dhi dni_contribution in
          sum ghi_output
      end
  end.

(** The variant that keeps every month-filtered record. *)
Definition computeGHI_unfiltered
           (libm_cos : float -> float) (self_data : option (list Row))
           (tilt_degrees : float) (months : list Z) (sky_condition : string)
  : float :=
  match self_data with
  | None => 0%float
  | Some df =>
      let dhi_col :=
        if (sky_condition =? "cloudy")%string then DHI else Clearsky_DHI in
      let dni_col :=
        if (sky_condition =? "cloudy")%string then DNI else Clearsky_DNI in
      let df_period := filter (fun r => isin (Month r) months) df in
      match df_period with
      | [] => 0%float
      | _ :: _ =>
          let cos_theta :=
            map libm_cos
                (map (fun d =>
                        (LATITUDE_RADIANS - radians tilt_degrees - d)%float)
                     (map Declination_Angle_Rad df_period)) in
          sum (np.zip_with PrimFloat.add (map dhi_col df_period)
                 (np.zip_with (fun (c : bool) x => if c then x else 0%float)
                    (map (fun c => (0 <? c)%float) cos_theta)
                    (np.zip_with PrimFloat.mul cos_theta
                                 (map dni_col df_period))))
      end
  end.

(** A cosine never returns more than one (it may return a NaN). *)
Definition cos_never_exceeds_one (libm_cos : float -> float) : Prop :=
  forall x, (1 <? libm_cos x)%float = false.

(** A January hour with diffuse irradiance [x] and no direct beam. *)
Definition diffuse_hour (x : float) : Row :=
  mkRow 1 x 0%float x 0%float 0%float 0%float.

(** A night hour followed by seven daylight hours of January. *)
Definition night_then_seven_hours : list Row :=
  map diffuse_hour
      [0; 16.6; 7.8; 20.3; 33.4; 2.5; 3.8; 27.5]%float.

End IEEE.

(* ------------------------------------------------------------------ *)
(** ** Arrays, sums and loops                                           *)
(* ------------------------------------------------------------------ *)

Section Arrays.

Context {A : Type}.

Lemma zip_with_map {B C D : Type} (f : B -> C -> D) (g : A -> B) (h : A -> C)
      (l : list A) :
  np.zip_with f (map g l) (map h l) = map (fun x => f (g x) (h x)) l.
Proof.
  induction l as [|x l IH]; simpl; [reflexivity|].
  now rewrite IH.
Qed.

Lemma sum_from (l : list R) (a : R) :
  fold_left Rplus l a = a + fold_left Rplus l 0.
Proof.
  revert a; induction l as [|x l IH]; intros a; simpl.
  - lra.
  - rewrite (IH (a + x)), (IH (0 + x)). lra.
Qed.

Lemma np_sum_map (f : A -> R) (l : list A) :
  np.sum (map f l) = sum_over f l.
Proof.
  unfold np.sum.
  induction l as [|x l IH]; simpl; [reflexivity|].
  rewrite sum_from, IH. lra.
Qed.

Lemma sum_over_ext (f g : A -> R) (l : list A) :
  (forall x, In x l -> f x = g x) -> sum_over f l = sum_over g l.
Proof.
  induction l as [|x l IH]; simpl; intros H; [reflexivity|].
  rewrite (H x (or_introl eq_refl)), IH; auto.
Qed.

Lemma sum_over_le (f g : A -> R) (l : list A) :
  (forall x, In x l -> f x <= g x) -> sum_over f l <= sum_over g l.
Proof.
  induction l as [|x l IH]; simpl; intros H; [lra|].
  pose proof (H x (or_introl eq_refl)).
  assert (sum_over f l <= sum_over g l) by (apply IH; auto).
  lra.
Qed.

Lemma sum_over_nonneg (f : A -> R) (l : list A) :
  (forall x, In x l -> 0 <= f x) -> 0 <= sum_over f l.
Proof.
  induction l as [|x l IH]; simpl; intros H; [lra|].
  pose proof (H x (or_introl eq_refl)).
  assert (0 <= sum_over f l) by (apply IH; auto).
  lra.
Qed.

(** Dropping elements whose term is zero does not change a sum. *)
Lemma sum_over_filter (f : A -> R) (keep : A -> bool) (l : list A) :
  (forall x, In x l -> keep x = false -> f x = 0) ->
  sum_over f (filter keep l) = sum_over f l.
Proof.
  induction l as [|x l IH]; simpl; intros H; [reflexivity|].
  destruct (keep x) eqn:K; simpl.
  - rewrite IH; auto.
  - rewrite IH, (H x (or_introl eq_refl) K); auto. lra.
Qed.

Lemma sum_over_fold (f : A -> R) (l : list A) (a : R) :
  fold_left (fun acc x => acc + f x) l a = a + sum_over f l.
Proof.
  revert a; induction l as [|x l IH]; intros a; simpl.
  - lra.
  - rewrite IH. lra.
Qed.

End Arrays.

Section Loops.

Context {S A St : Type}.

(** A loop whose body neither raises nor changes [self] is a left fold. *)
Lemma for_in_fold (body : A -> St -> Method S St) (step : St -> A -> St)
      (self : S) (xs : list A) :
  (forall x st, In x xs -> body x st self = (Ok (step st x), self)) ->
  forall st, for_in xs body st self = (Ok (fold_left step xs st), self).
Proof.
  induction xs as [|x xs IH]; intros H st; simpl.
  - reflexivity.
  - unfold bind. rewrite (H x st (or_introl eq_refl)).
    apply IH. intros y st' Hy. apply H. now right.
Qed.

End Loops.

Lemma Rgtb_true (x y : R) : Rgtb x y = true <-> x > y.
Proof. unfold Rgtb. destruct (Rgt_dec x y); split; intros; auto; discriminate. Qed.

Lemma Rgtb_false (x y : R) : Rgtb x y = false <-> x <= y.
Proof.
  unfold Rgtb. destruct (Rgt_dec x y); split; intros; auto; try discriminate; lra.
Qed.

Lemma Reqb_true (x y : R) : Reqb x y = true <-> x = y.
Proof. unfold Reqb. destruct (Req_dec_T x y); split; intros; auto; discriminate. Qed.

Lemma range_length (lo hi : Z) : List.length (range lo hi) = Z.to_nat (hi - lo).
Proof. unfold range. now rewrite length_map, length_seq. Qed.

Lemma in_range (lo hi x : Z) : In x (range lo hi) <-> (lo <= x < hi)%Z.
Proof.
  unfold range. rewrite in_map_iff. split.
  - intros (k & <- & Hk). apply in_seq in Hk. lia.
  - intros H. exists (Z.to_nat (x - lo)). split; [lia|].
    apply in_seq. lia.
Qed.

Lemma range_snoc (lo : Z) (n : nat) :
  range lo (lo + Z.of_nat (S n)) = range lo (lo + Z.of_nat n) ++ [(lo + Z.of_nat n)%Z].
Proof.
  unfold range.
  replace (Z.to_nat (lo + Z.of_nat (S n) - lo)) with (S n) by lia.
  replace (Z.to_nat (lo + Z.of_nat n - lo)) with n by lia.
  now rewrite seq_S, map_app.
Qed.

Lemma isin_In (m : Z) (months : list Z) : isin m months = true <-> In m months.
Proof.
  unfold isin. rewrite existsb_exists. split.
  - intros (x & Hx & E). apply Z.eqb_eq in E. now subst.
  - intros H. exists m. split; [assumption | apply Z.eqb_refl].
Qed.

Lemma isin_same (m : Z) (M1 M2 : list Z) :
  (forall x, In x M1 <-> In x M2) -> isin m M1 = isin m M2.
Proof.
  intros H. destruct (isin m M1) eqn:E1, (isin m M2) eqn:E2; try reflexivity.
  - apply isin_In, H, isin_In in E1. congruence.
  - apply isin_In, H, isin_In in E2. congruence.
Qed.

(* ------------------------------------------------------------------ *)
(** ** The irradiance calculator                                        *)
(* ------------------------------------------------------------------ *)

(** Every row the loader keeps carries its own declination, converted to
    radians. *)
Lemma prepared_declination (rows : list CsvRow) (r : Row) :
  In r (prepare_rows rows) ->
  Declination_Angle_Rad r = np.radians (Declination_Angle r).
Proof.
  induction rows as [|c rows IH]; simpl; [tauto|].
  destruct (prepare_row c) as [r'|] eqn:E; [|exact IH].
  intros [<- | H]; [|now apply IH].
  unfold prepare_row in E.
  destruct (csv_Month c), (csv_DHI c), (csv_DNI c), (csv_Clearsky_DHI c),
    (csv_Clearsky_DNI c), (csv_Declination_Angle c); try discriminate.
  now injection E as <-.
Qed.

(** A failed load leaves the analyser without data, and the calculator
    then answers [0]. *)
Lemma failed_load_has_no_data (path : string) :
  data (__init__ path FileNotFoundError) = None
  /\ data (__init__ path OtherException) = None.
Proof. split; reflexivity. Qed.

(** The call returns normally and hands back the analyser it was given. *)
Lemma calculate_ghi_for_tilt_run (self : SolarAnalysis) tilt months sky :
  calculate_ghi_for_tilt tilt months sky self
  = (Ok (ghi self tilt months sky), self).
Proof.
  unfold ghi, value_or, calculate_ghi_for_tilt, bind, attr, ret.
  destruct (data self) as [df|]; [|reflexivity].
  destruct (filter _ (filter _ df)); reflexivity.
Qed.

(** The array [ghi_output] the method sums, row by row. *)
Lemma ghi_output_rows tilt sky (rows : list Row) :
  let dhi_col := if (sky =? "cloudy")%string then DHI else Clearsky_DHI in
  let dni_col := if (sky =? "cloudy")%string then DNI else Clearsky_DNI in
  let cos_theta :=
    np.cos (map (fun d => LATITUDE_RADIANS - np.radians tilt - d)
                (map Declination_Angle_Rad rows)) in
  np.zip_with Rplus (map dhi_col rows)
    (np.where_ (map (fun c => Rgtb c 0) cos_theta)
               (np.zip_with Rmult cos_theta (map dni_col rows)) 0)
  = map (row_output tilt sky) rows.
Proof.
  intros dhi_col dni_col cos_theta. subst cos_theta.
  unfold np.cos, np.where_. rewrite !map_map.
  rewrite (zip_with_map Rmult), (zip_with_map (fun (c : bool) x => if c then x else 0)).
  rewrite (zip_with_map Rplus). reflexivity.
Qed.

(** A zero-radiation hour contributes nothing, whatever the angle. *)
Lemma zero_radiation_output tilt sky r :
  zero_radiation sky r = true -> row_output tilt sky r = 0.
Proof.
  unfold zero_radiation, row_output.
  destruct (sky =? "cloudy")%string; intros H;
    apply andb_true_iff in H; destruct H as [H1 H2];
    apply Reqb_true in H1; apply Reqb_true in H2; rewrite H1, H2;
    match goal with |- context [Rgtb ?c 0] => destruct (Rgtb c 0) end; lra.
Qed.

(** The value of the calculator on a loaded dataset: the sum of the row
    outputs over the month-filtered rows. *)
Lemma ghi_loaded (self : SolarAnalysis) (df : DataFrame) tilt months sky :
  data self = Some df ->
  ghi self tilt months sky
  = sum_over (row_output tilt sky) (filter (fun r => isin (Month r) months) df).
Proof.
  intros Hd.
  unfold ghi, value_or, calculate_ghi_for_tilt, bind, attr, ret.
  cbv beta iota delta [fst]. rewrite Hd.
  set (period := filter (fun r => isin (Month r) months) df).
  rewrite <- (sum_over_filter (row_output tilt sky)
                (fun r => negb (zero_radiation sky r)) period).
  2:{ intros r _ H. apply zero_radiation_output. now apply negb_false_iff. }
  unfold zero_radiation.
  destruct (filter _ period) as [|r rows] eqn:E; [reflexivity|].
  cbv beta iota. rewrite ghi_output_rows. apply np_sum_map.
Qed.

Lemma ghi_not_loaded (self : SolarAnalysis) tilt months sky :
  data self = None -> ghi self tilt months sky = 0.
Proof.
  intros Hd. unfold ghi, value_or, calculate_ghi_for_tilt, bind, attr, ret.
  cbv beta iota delta [fst]. now rewrite Hd.
Qed.

Lemma unfiltered_loaded (self : SolarAnalysis) (df : DataFrame) tilt months sky :
  data self = Some df ->
  Spec.computeGHI_unfiltered tilt months sky self
  = (Ok (sum_over (row_output tilt sky)
                  (filter (fun r => isin (Month r) months) df)), self).
Proof.
  intros Hd. unfold Spec.computeGHI_unfiltered, bind, attr, ret. rewrite Hd.
  destruct (filter _ df) as [|r rows] eqn:E; [reflexivity|].
  now rewrite ghi_output_rows, np_sum_map.
Qed.

Lemma row_output_spec tilt (sky : Spec.SkyCondition) r :
  row_output tilt (Spec.sky_name sky) r
  = Spec.diffuseIrradiance sky r + Spec.directContribution tilt sky r.
Proof.
  unfold row_output, Spec.directContribution, Spec.theta, Rgtb.
  destruct sky; simpl;
    match goal with |- context [Rgt_dec ?c 0] => destruct (Rgt_dec c 0) end;
    reflexivity.
Qed.

(** C1. On a loaded dataset, for every tilt, month list and sky condition,
    [calculate_ghi_for_tilt] returns the sum, over the records whose month
    lies in the month list, of the diffuse irradiance plus the direct
    contribution, the latter being [cos(theta) * direct] when
    [cos(theta) > 0] and [0] otherwise, with
    [theta = latitude - radians(tilt) - declination] read per record and
    the column pair chosen by the sky condition. *)
Theorem C1_calculate_ghi_is_the_contract_sum
        (self : SolarAnalysis) (df : DataFrame)
        (t : R) (M : list Z) (sky : Spec.SkyCondition) :
  data self = Some df ->
  calculate_ghi_for_tilt t M (Spec.sky_name sky) self
  = (Ok (Spec.computeGHI df t M sky), self).
Proof.
  intros Hd. rewrite calculate_ghi_for_tilt_run. f_equal. f_equal.
  rewrite (ghi_loaded self df) by assumption.
  unfold Spec.computeGHI. apply sum_over_ext.
  intros r _. apply row_output_spec.
Qed.

Lemma C1_witness :
  calculate_ghi_for_tilt 30 [1%Z] "cloudy" sunny
  = (Ok (Spec.computeGHI [january_hour 3] 30 [1%Z] Spec.cloudy), sunny).
Proof.
  apply (C1_calculate_ghi_is_the_contract_sum sunny [january_hour 3] 30 [1%Z] Spec.cloudy).
  reflexivity.
Defined.

(** C5 (amended). In exact real arithmetic, for every tilt, month list
    and sky condition, the calculator with its exclusion of the hours
    whose diffuse and direct fields are both exactly zero returns the
    same value as the variant that sums over all month-filtered records:
    an excluded hour contributes exactly zero.  (On IEEE doubles the two
    sums are grouped differently and need not be bit-identical; see the
    section on rounding.) *)
Theorem C5_zero_hour_exclusion_is_an_optimisation
        (self : SolarAnalysis) (t : R) (M : list Z) (sky : string) :
  calculate_ghi_for_tilt t M sky self = Spec.computeGHI_unfiltered t M sky self.
Proof.
  rewrite calculate_ghi_for_tilt_run.
  destruct (data self) as [df|] eqn:Hd.
  - rewrite (unfiltered_loaded self df) by assumption.
    now rewrite (ghi_loaded self df) by assumption.
  - rewrite ghi_not_loaded by assumption.
    unfold Spec.computeGHI_unfiltered, bind, attr, ret. now rewrite Hd.
Qed.

(** C8. For a fixed dataset, tilt, month list and sky condition, two
    successive calls of the calculator return the same value, neither
    raises, and each leaves the analyser (its dataset included) as it
    found it. *)
Theorem C8_calculate_ghi_is_pure
        (self : SolarAnalysis) (t : R) (M : list Z) (sky : string) :
  let first_call := calculate_ghi_for_tilt t M sky self in
  let second_call := calculate_ghi_for_tilt t M sky (snd first_call) in
  fst first_call = fst second_call
  /\ (exists v, fst first_call = Ok v)
  /\ snd first_call = self
  /\ snd second_call = self
  /\ data (snd second_call) = data self.
Proof.
  cbv zeta. rewrite calculate_ghi_for_tilt_run. cbn [fst snd].
  rewrite calculate_ghi_for_tilt_run. cbn [fst snd].
  repeat split. now exists (ghi self t M sky).
Qed.

(** C9. Any sky-condition string other than exactly ["cloudy"] selects
    the clear-sky column pair: the calculator then behaves as for
    ["clear"]. *)
Theorem C9_unrecognised_sky_falls_back_to_clear
        (self : SolarAnalysis) (t : R) (M : list Z) (sky : string) :
  sky <> "cloudy"%string ->
  calculate_ghi_for_tilt t M sky self = calculate_ghi_for_tilt t M "clear" self.
Proof.
  intros H. apply String.eqb_neq in H.
  unfold calculate_ghi_for_tilt. rewrite H.
  replace ("clear" =? "cloudy")%string with false by reflexivity.
  reflexivity.
Qed.

Lemma C9_witness :
  calculate_ghi_for_tilt 30 [1%Z] "cloudly" sunny
  = calculate_ghi_for_tilt 30 [1%Z] "clear" sunny.
Proof.
  apply (C9_unrecognised_sky_falls_back_to_clear sunny 30 [1%Z] "cloudly").
  discriminate.
Defined.

(** C10. The calculator depends only on the set of months in its month
    argument: two month lists with the same elements, whatever their
    order and repetitions, give the same result. *)
Theorem C10_months_matter_only_as_a_set
        (self : SolarAnalysis) (t : R) (M1 M2 : list Z) (sky : string) :
  (forall m, In m M1 <-> In m M2) ->
  calculate_ghi_for_tilt t M1 sky self = calculate_ghi_for_tilt t M2 sky self.
Proof.
  intros H. unfold calculate_ghi_for_tilt.
  assert (E : forall df : DataFrame,
             filter (fun r => isin (Month r) M1) df
             = filter (fun r => isin (Month r) M2) df).
  { intros df. apply filter_ext. intros r. now apply isin_same. }
  unfold bind, attr. destruct (data self) as [df|]; [|reflexivity].
  now rewrite E.
Qed.

Lemma C10_witness :
  calculate_ghi_for_tilt 30 [1; 2; 2; 1]%Z "cloudy" sunny
  = calculate_ghi_for_tilt 30 [2; 1]%Z "cloudy" sunny.
Proof.
  apply (C10_months_matter_only_as_a_set sunny 30 [1; 2; 2; 1]%Z [2; 1]%Z).
  intros m. simpl. tauto.
Defined.

(* ------------------------------------------------------------------ *)
(** ** The tilt optimiser                                               *)
(* ------------------------------------------------------------------ *)

(** The search returns normally, leaves the analyser alone, and its
    result is the scan of the 91 candidates. *)
Lemma find_optimal_tilt_scan (self : SolarAnalysis) months sky :
  find_optimal_tilt months sky self
  = (Ok (snd (scan (fun t => ghi self (IZR t) months sky) (range 0 91)),
         fst (scan (fun t => ghi self (IZR t) months sky) (range 0 91))),
     self).
Proof.
  unfold find_optimal_tilt, scan, bind at 1.
  rewrite (for_in_fold _ (improve (fun t => ghi self (IZR t) months sky))).
  - destruct (fold_left _ _ _) as [m b]. reflexivity.
  - intros tilt [m b] _. unfold bind. rewrite calculate_ghi_for_tilt_run.
    unfold improve. destruct (Rgtb _ m); reflexivity.
Qed.

Lemma find_optimal_tilt_run (self : SolarAnalysis) months sky :
  find_optimal_tilt months sky self = (Ok (optimum self months sky), self).
Proof.
  unfold optimum, value_or. now rewrite find_optimal_tilt_scan.
Qed.

Lemma optimum_scan (self : SolarAnalysis) months sky :
  optimum self months sky
  = (snd (scan (fun t => ghi self (IZR t) months sky) (range 0 91)),
     fst (scan (fun t => ghi self (IZR t) months sky) (range 0 91))).
Proof.
  unfold optimum, value_or. now rewrite find_optimal_tilt_scan.
Qed.

Lemma range_snoc0 (n : nat) :
  range 0 (Z.of_nat (S n)) = range 0 (Z.of_nat n) ++ [Z.of_nat n].
Proof.
  pose proof (range_snoc 0 n) as H. now rewrite !Z.add_0_l in H.
Qed.

Lemma scan_snoc (f : Z -> R) (l : list Z) (x : Z) :
  scan f (l ++ [x]) = improve f (scan f l) x.
Proof. unfold scan. now rewrite fold_left_app. Qed.

(** The state of the search after the candidates [0 .. n-1]: either no
    candidate beat the initial incumbent and the state is still
    [(-1, -1)], or the state is the first candidate that attains the
    maximum so far. *)
Lemma scan_invariant (f : Z -> R) (n : nat) :
  let m := fst (scan f (range 0 (Z.of_nat n))) in
  let b := snd (scan f (range 0 (Z.of_nat n))) in
  (b = (-1)%Z /\ m = -1 /\
   forall t, (0 <= t < Z.of_nat n)%Z -> f t <= -1)
  \/
  ((0 <= b < Z.of_nat n)%Z /\ m = f b /\ m > -1 /\
   (forall t, (0 <= t < Z.of_nat n)%Z -> f t <= m) /\
   (forall t, (0 <= t < b)%Z -> f t < m)).
Proof.
  induction n as [|n IH].
  - left. cbn. repeat split. intros t Ht. lia.
  - cbv zeta in IH |- *. rewrite range_snoc0, scan_snoc.
    destruct (scan f (range 0 (Z.of_nat n))) as [m b]. cbn [fst snd] in IH.
    unfold improve.
    assert (Hlast : forall t, (0 <= t < Z.of_nat (S n))%Z ->
                          (0 <= t < Z.of_nat n)%Z \/ t = Z.of_nat n) by lia.
    destruct (Rgtb (f (Z.of_nat n)) m) eqn:G; cbn [fst snd].
    + apply Rgtb_true in G. right.
      destruct IH as [(Hb & Hm & Hall) | (Hb & Hm & Hgt & Hall & Hfirst)].
      * repeat split; try lia; try lra.
        -- intros t Ht. destruct (Hlast t Ht) as [H | ->]; [|lra].
           specialize (Hall t H). lra.
        -- intros t Ht. assert (H : (0 <= t < Z.of_nat n)%Z) by lia.
           specialize (Hall t H). lra.
      * repeat split; try lia; try lra.
        -- intros t Ht. destruct (Hlast t Ht) as [H | ->]; [|lra].
           specialize (Hall t H). lra.
        -- intros t Ht. assert (H : (0 <= t < Z.of_nat n)%Z) by lia.
           specialize (Hall t H). lra.
    + apply Rgtb_false in G.
      destruct IH as [(Hb & Hm & Hall) | (Hb & Hm & Hgt & Hall & Hfirst)].
      * left. repeat split; try assumption.
        intros t Ht. destruct (Hlast t Ht) as [H | ->]; [auto | lra].
      * right. repeat split; try lia; try assumption.
        intros t Ht. destruct (Hlast t Ht) as [H | ->]; [auto | lra].
Qed.

(** The reported maximum is never below a candidate's GHI. *)
Lemma optimum_dominates (self : SolarAnalysis) months sky (t : Z) :
  (0 <= t <= 90)%Z ->
  ghi self (IZR t) months sky <= snd (optimum self months sky).
Proof.
  intros Ht. rewrite optimum_scan. cbn [snd].
  pose proof (scan_invariant (fun t => ghi self (IZR t) months sky) 91) as H.
  cbv zeta in H. change (Z.of_nat 91) with 91%Z in H.
  destruct H as [(_ & Hm & Hall) | (_ & _ & _ & Hall & _)].
  - rewrite Hm. apply Hall. lia.
  - apply Hall. lia.
Qed.

(** When some candidate beats the initial incumbent, the search returns
    the first candidate that attains the maximum, with that maximum. *)
Lemma optimum_argmax (self : SolarAnalysis) months sky :
  (exists t, (0 <= t <= 90)%Z /\ ghi self (IZR t) months sky > -1) ->
  let bt := fst (optimum self months sky) in
  let mg := snd (optimum self months sky) in
  (0 <= bt <= 90)%Z
  /\ mg = ghi self (IZR bt) months sky
  /\ (forall t, (0 <= t <= 90)%Z -> ghi self (IZR t) months sky <= mg)
  /\ (forall t, (0 <= t < bt)%Z -> ghi self (IZR t) months sky < mg).
Proof.
  intros (t0 & Ht0 & Hgt). cbv zeta. rewrite optimum_scan. cbn [fst snd].
  pose proof (scan_invariant (fun t => ghi self (IZR t) months sky) 91) as H.
  cbv zeta in H. change (Z.of_nat 91) with 91%Z in H.
  destruct H as [(_ & _ & Hall) | (Hb & Hm & _ & Hall & Hfirst)].
  - assert (ghi self (IZR t0) months sky <= -1) by (apply Hall; lia). lra.
  - repeat split; try lia; try assumption.
    intros t Ht. apply Hall. lia.
Qed.

(** When no candidate beats the initial incumbent, the search returns the
    initial incumbent itself. *)
Lemma optimum_sentinel (self : SolarAnalysis) months sky :
  (forall t, (0 <= t <= 90)%Z -> ghi self (IZR t) months sky <= -1) ->
  optimum self months sky = ((-1)%Z, -1).
Proof.
  intros Hle. rewrite optimum_scan.
  pose proof (scan_invariant (fun t => ghi self (IZR t) months sky) 91) as H.
  cbv zeta in H. change (Z.of_nat 91) with 91%Z in H.
  destruct H as [(Hb & Hm & _) | (Hb & Hm & Hgt & _ & _)].
  - now rewrite Hb, Hm.
  - rewrite Hm in Hgt.
    assert (ghi self (IZR (snd (scan (fun t => ghi self (IZR t) months sky)
                                     (range 0 91)))) months sky <= -1)
      by (apply Hle; lia).
    lra.
Qed.

(** The GHI of the one-hour January frames, for every tilt. *)
Lemma ghi_january_hour (x t : R) (sky : string) :
  ghi (analyser_of [january_hour x]) t [1%Z] sky = x.
Proof.
  rewrite (ghi_loaded _ [january_hour x]) by reflexivity.
  cbn [filter isin existsb Month january_hour Z.eqb Pos.eqb orb sum_over].
  unfold row_output, january_hour.
  destruct (sky =? "cloudy")%string;
    cbn [DHI DNI Clearsky_DHI Clearsky_DNI Declination_Angle_Rad];
    match goal with |- context [Rgtb ?c 0] => destruct (Rgtb c 0) end; lra.
Qed.

(** Where some candidate tilt's GHI exceeds the initial incumbent [-1],
    [find_optimal_tilt] has searched all 91 integer tilts [0..90] and
    returns the smallest tilt that attains the maximum of the calculator
    over those candidates, with that maximum: a candidate replaces the
    incumbent only on a strictly greater GHI, so every earlier tilt has a
    strictly smaller GHI than the one returned. *)
Theorem find_optimal_tilt_smallest_argmax
        (self : SolarAnalysis) (M : list Z) (sky : string) :
  some_candidate_beats_incumbent self M sky ->
  List.length (range 0 91) = 91%nat
  /\ (forall t, In t (range 0 91) <-> (0 <= t <= 90)%Z)
  /\ returns_smallest_argmax self M sky.
Proof.
  intros H. split; [reflexivity|]. split.
  { intros t. rewrite in_range. lia. }
  destruct (optimum_argmax self M sky H) as (Hb & Hm & Hall & Hfirst).
  exists (fst (optimum self M sky)), (snd (optimum self M sky)).
  rewrite <- surjective_pairing. split; [apply find_optimal_tilt_run|].
  split; [assumption|]. split; [|split; assumption].
  rewrite calculate_ghi_for_tilt_run. now rewrite Hm.
Qed.

Lemma find_optimal_tilt_smallest_argmax_example :
  List.length (range 0 91) = 91%nat
  /\ (forall t, In t (range 0 91) <-> (0 <= t <= 90)%Z)
  /\ returns_smallest_argmax sunny [1%Z] "cloudy".
Proof.
  apply (find_optimal_tilt_smallest_argmax sunny [1%Z] "cloudy").
  exists 0%Z. split; [lia|].
  unfold sunny. rewrite ghi_january_hour. lra.
Defined.

(** C2 (the code departs from it). On a frame whose only January hour
    reads [-5], every candidate tilt [0..90] has a GHI of [-5], so the
    smallest tilt that attains the maximum is tilt [0], with GHI [-5].
    No candidate is strictly greater than the initial incumbent, the loop
    never updates, and [find_optimal_tilt] returns the incumbent itself,
    tilt [-1] with GHI [-1]: not the smallest argmax, and not a
    candidate at all. *)
Theorem C2_incumbent_returned_instead_of_the_argmax :
  (forall t, (0 <= t <= 90)%Z ->
     calculate_ghi_for_tilt (IZR t) [1%Z] "cloudy" below_sentinel
     = (Ok (-5), below_sentinel))
  /\ find_optimal_tilt [1%Z] "cloudy" below_sentinel
     = (Ok ((-1)%Z, -1), below_sentinel)
  /\ ~ returns_smallest_argmax below_sentinel [1%Z] "cloudy".
Proof.
  assert (E : optimum below_sentinel [1%Z] "cloudy" = ((-1)%Z, -1)).
  { apply optimum_sentinel. intros t _.
    unfold below_sentinel. rewrite ghi_january_hour. lra. }
  split; [|split].
  - intros t _. rewrite calculate_ghi_for_tilt_run.
    unfold below_sentinel. now rewrite ghi_january_hour.
  - rewrite find_optimal_tilt_run. now rewrite E.
  - intros (bt & mg & Hrun & Hb & _).
    rewrite find_optimal_tilt_run, E in Hrun.
    injection Hrun as Hbt _. lia.
Qed.

(** C7 (the code departs from it). On a frame whose only hour reads
    [-5], every candidate's GHI is [-5 < -1]: the search returns the
    initial incumbent, tilt [-1] with GHI [-1], outside [0..90]. *)
Theorem C7_sentinel_escapes_the_search_domain :
  find_optimal_tilt [1%Z] "clear" below_sentinel
  = (Ok ((-1)%Z, -1), below_sentinel)
  /\ ~ (0 <= fst (optimum below_sentinel [1%Z] "clear") <= 90)%Z
  /\ forall t, (0 <= t <= 90)%Z ->
       calculate_ghi_for_tilt (IZR t) [1%Z] "clear" below_sentinel
       = (Ok (-5), below_sentinel).
Proof.
  assert (E : optimum below_sentinel [1%Z] "clear" = ((-1)%Z, -1)).
  { apply optimum_sentinel. intros t _.
    unfold below_sentinel. rewrite ghi_january_hour. lra. }
  split; [|split].
  - rewrite find_optimal_tilt_run. now rewrite E.
  - rewrite E. cbn [fst]. lia.
  - intros t _. rewrite calculate_ghi_for_tilt_run.
    unfold below_sentinel. now rewrite ghi_january_hour.
Qed.

(** With no qualifying record the calculator returns [0]. *)
Lemma ghi_empty_period (self : SolarAnalysis) t months sky :
  no_qualifying_record self months sky -> ghi self t months sky = 0.
Proof.
  intros H. destruct (data self) as [df|] eqn:Hd.
  - rewrite (ghi_loaded self df) by assumption.
    rewrite <- (sum_over_filter (row_output t sky)
                  (fun r => negb (zero_radiation sky r))).
    + now rewrite (H df Hd).
    + intros r _ Hr. apply zero_radiation_output. now apply negb_false_iff.
  - now apply ghi_not_loaded.
Qed.

(** With no qualifying record every candidate ties at [0]: the first one,
    tilt [0], beats the initial incumbent and is never replaced. *)
Lemma optimum_empty_period (self : SolarAnalysis) months sky :
  no_qualifying_record self months sky ->
  optimum self months sky = (0%Z, 0).
Proof.
  intros H.
  assert (Hz : forall t', ghi self t' months sky = 0)
    by (intros t'; now apply ghi_empty_period).
  destruct (optimum_argmax self months sky) as (Hb & Hm & _ & Hfirst).
  { exists 0%Z. split; [lia|]. rewrite Hz. lra. }
  rewrite Hz in Hm.
  destruct (optimum self months sky) as [bt mg]. cbn [fst snd] in *.
  f_equal; [|assumption].
  destruct (Z.eq_dec bt 0) as [|Hne]; [assumption|].
  assert (Hlt : ghi self (IZR 0) months sky < mg) by (apply Hfirst; lia).
  rewrite Hz in Hlt. lra.
Qed.

(** C3. When no record qualifies for the period (the month list matches
    no record, as with the impossible month 13, or only zero-radiation
    hours), the calculator returns exactly [0] for every tilt and sky
    condition, and [find_optimal_tilt] returns tilt [0] with GHI [0]:
    both calls return normally. *)
Theorem C3_empty_period_is_defined
        (self : SolarAnalysis) (t : R) (M : list Z) (sky : string) :
  no_qualifying_record self M sky ->
  calculate_ghi_for_tilt t M sky self = (Ok 0, self)
  /\ find_optimal_tilt M sky self = (Ok (0%Z, 0), self).
Proof.
  intros H. split.
  - rewrite calculate_ghi_for_tilt_run. now rewrite ghi_empty_period.
  - rewrite find_optimal_tilt_run. now rewrite optimum_empty_period.
Qed.

Lemma C3_witness :
  calculate_ghi_for_tilt 45 [13%Z] "cloudy" sunny = (Ok 0, sunny)
  /\ find_optimal_tilt [13%Z] "cloudy" sunny = (Ok (0%Z, 0), sunny).
Proof.
  apply (C3_empty_period_is_defined sunny 45 [13%Z] "cloudy").
  intros df Hdf. injection Hdf as <-. reflexivity.
Defined.

(* ------------------------------------------------------------------ *)
(** ** The arrangements                                                 *)
(* ------------------------------------------------------------------ *)

Lemma sum_over_plus {A : Type} (f g : A -> R) (l : list A) :
  sum_over (fun x => f x + g x) l = sum_over f l + sum_over g l.
Proof.
  induction l as [|x l IH]; simpl; [lra|]. rewrite IH. lra.
Qed.

Lemma sum_over_zero {A : Type} (l : list A) : sum_over (fun _ => 0) l = 0.
Proof.
  induction l as [|x l IH]; simpl; [reflexivity|]. rewrite IH. lra.
Qed.

Lemma sum_over_filter_if {A : Type} (f : A -> R) (p : A -> bool) (l : list A) :
  sum_over f (filter p l) = sum_over (fun x => if p x then f x else 0) l.
Proof.
  induction l as [|x l IH]; simpl; [reflexivity|].
  destruct (p x); simpl; rewrite IH; lra.
Qed.

(** Rows are partitioned by their month: a sum over the rows of several
    distinct months is the sum of the sums month by month. *)
Lemma sum_by_month (h : Row -> R) (df : DataFrame) (L : list Z) :
  NoDup L ->
  sum_over h (filter (fun r => isin (Month r) L) df)
  = sum_over (fun m => sum_over h (filter (fun r => isin (Month r) [m]) df)) L.
Proof.
  induction 1 as [|a L Ha HL IH].
  - rewrite sum_over_filter_if. cbn. apply sum_over_zero.
  - cbn [sum_over]. rewrite <- IH, !sum_over_filter_if, <- sum_over_plus.
    apply sum_over_ext. intros r _. cbn [isin existsb].
    change (existsb (fun m' => (Month r =? m')%Z) L) with (isin (Month r) L).
    destruct (Month r =? a)%Z eqn:E; cbn [orb].
    + apply Z.eqb_eq in E.
      destruct (isin (Month r) L) eqn:E'; [|lra].
      exfalso. apply Ha. rewrite <- E. now apply isin_In.
    + destruct (isin (Month r) L); lra.
Qed.

Lemma range_NoDup (lo hi : Z) : NoDup (range lo hi).
Proof.
  unfold range. apply Finite.Injective_map_NoDup.
  - intros x y. lia.
  - apply seq_NoDup.
Qed.

(** The whole-year GHI of a tilt is the sum of its twelve monthly GHIs. *)
Lemma ghi_year_by_month (self : SolarAnalysis) t sky :
  ghi self t (range 1 13) sky
  = sum_over (fun m => ghi self t [m] sky) (range 1 13).
Proof.
  destruct (data self) as [df|] eqn:Hd.
  - rewrite (ghi_loaded self df) by assumption.
    rewrite sum_by_month by apply range_NoDup.
    apply sum_over_ext. intros m _. now rewrite (ghi_loaded self df).
  - rewrite ghi_not_loaded by assumption.
    rewrite (sum_over_ext _ (fun _ => 0)).
    + now rewrite sum_over_zero.
    + intros m _. now apply ghi_not_loaded.
Qed.

Lemma analyze_arrangement_4_run (self : SolarAnalysis) sky :
  analyze_arrangement_4 sky self
  = (Ok (sum_over (fun m => snd (optimum self [m] sky)) (range 1 13)), self).
Proof.
  unfold analyze_arrangement_4.
  rewrite (for_in_fold _ (fun total m => total + snd (optimum self [m] sky))).
  - rewrite sum_over_fold. now rewrite Rplus_0_l.
  - intros m total _. unfold bind. rewrite find_optimal_tilt_run.
    destruct (optimum self [m] sky). reflexivity.
Qed.

Lemma analyze_arrangement_6_run (self : SolarAnalysis) sky :
  analyze_arrangement_6 sky self
  = (Ok (snd (optimum self (range 1 13) sky)), self).
Proof.
  unfold analyze_arrangement_6, bind. rewrite find_optimal_tilt_run.
  destruct (optimum self (range 1 13) sky). reflexivity.
Qed.

(** The reported maximum is a candidate's GHI, unless it is the initial
    incumbent and every candidate is at or below it. *)
Lemma optimum_attained_or_sentinel (self : SolarAnalysis) months sky :
  (snd (optimum self months sky) = -1 /\
   forall t, (0 <= t <= 90)%Z -> ghi self (IZR t) months sky <= -1)
  \/ exists b, (0 <= b <= 90)%Z
               /\ snd (optimum self months sky) = ghi self (IZR b) months sky.
Proof.
  rewrite optimum_scan. cbn [snd].
  pose proof (scan_invariant (fun t => ghi self (IZR t) months sky) 91) as H.
  cbv zeta in H. change (Z.of_nat 91) with 91%Z in H.
  destruct H as [(_ & Hm & Hall) | (Hb & Hm & _)].
  - left. split; [assumption|]. intros t Ht. apply Hall. lia.
  - right. eexists. split; [|exact Hm]. lia.
Qed.

Lemma row_output_nonneg t sky r : nonneg_row r -> 0 <= row_output t sky r.
Proof.
  intros (H1 & H2 & H3 & H4). unfold row_output.
  destruct (sky =? "cloudy")%string;
    match goal with |- context [Rgtb ?c 0] =>
      destruct (Rgtb c 0) eqn:G; [apply Rgtb_true in G; nra | lra] end.
Qed.

(** On non-negative irradiance data every GHI is non-negative. *)
Lemma ghi_nonneg (self : SolarAnalysis) t months sky :
  (forall df, data self = Some df -> Forall nonneg_row df) ->
  0 <= ghi self t months sky.
Proof.
  intros H. destruct (data self) as [df|] eqn:Hd.
  - rewrite (ghi_loaded self df) by assumption.
    apply sum_over_nonneg. intros r Hr. apply row_output_nonneg.
    apply filter_In in Hr. destruct Hr as [Hr _].
    specialize (H df eq_refl). rewrite Forall_forall in H. now apply H.
  - rewrite ghi_not_loaded by assumption. lra.
Qed.

(** In exact arithmetic, for every dataset and sky condition for which
    some candidate tilt has a whole-year GHI of at least [-1] (every
    dataset with non-negative irradiance is one), Arrangement 4's total,
    the sum of the twelve monthly maxima, is at least Arrangement 6's
    total, the maximum for a single tilt over the twelve months together. *)
Theorem monthly_optimal_dominates_annual_exact
        (self : SolarAnalysis) (sky : string) :
  annual_ghi_reaches_sentinel self sky ->
  monthly_dominates_annual self sky.
Proof.
  intros (t0 & Ht0 & Hge).
  exists (sum_over (fun m => snd (optimum self [m] sky)) (range 1 13)),
         (snd (optimum self (range 1 13) sky)).
  split; [apply analyze_arrangement_4_run|].
  split; [apply analyze_arrangement_6_run|].
  assert (Hb : exists b, (0 <= b <= 90)%Z /\
             snd (optimum self (range 1 13) sky)
             = ghi self (IZR b) (range 1 13) sky).
  { destruct (optimum_attained_or_sentinel self (range 1 13) sky)
      as [(Hm & Hall) | Hex]; [|exact Hex].
    exists t0. split; [assumption|].
    specialize (Hall t0 Ht0). lra. }
  destruct Hb as (b & Hb & ->).
  rewrite ghi_year_by_month. apply Rle_ge, sum_over_le.
  intros m _. now apply optimum_dominates.
Qed.

Lemma monthly_optimal_dominates_annual_example :
  monthly_dominates_annual sunny "cloudy".
Proof.
  apply (monthly_optimal_dominates_annual_exact sunny "cloudy").
  exists 0%Z. split; [lia|].
  assert (H : 0 <= ghi sunny (IZR 0) (range 1 13) "cloudy").
  { apply ghi_nonneg. intros df Hdf. injection Hdf as <-.
    repeat constructor; cbn; lra. }
  lra.
Defined.

(** The GHI of the two-month frame: [-5] for each of January and
    February that the month list contains. *)
Lemma ghi_two_months_below (t : R) (M : list Z) (sky : string) :
  ghi two_months_below t M sky
  = (if isin 1 M then -5 else 0) + (if isin 2 M then -5 else 0).
Proof.
  rewrite (ghi_loaded two_months_below
             [mkRow 1 (-5) 0 (-5) 0 0 0; mkRow 2 (-5) 0 (-5) 0 0 0])
    by reflexivity.
  rewrite sum_over_filter_if.
  cbn [sum_over Month].
  assert (E : forall m, row_output t sky (mkRow m (-5) 0 (-5) 0 0 0) = -5).
  { intros m. unfold row_output.
    destruct (sky =? "cloudy")%string;
      cbn [DHI DNI Clearsky_DHI Clearsky_DNI Declination_Angle_Rad];
      match goal with |- context [Rgtb ?c 0] => destruct (Rgtb c 0) end; lra. }
  rewrite !E. lra.
Qed.

Lemma range_1_13 : range 1 13 = [1; 2; 3; 4; 5; 6; 7; 8; 9; 10; 11; 12]%Z.
Proof. reflexivity. Qed.

(** C4 (the code departs from it). With a January and a February hour
    that both read [-5], every candidate of those two months, and of the
    whole year, stays below the initial incumbent of [find_optimal_tilt],
    which is returned untouched with GHI [-1]; the ten empty months
    report [0].  Arrangement 4 returns [-2] and Arrangement 6 returns
    [-1]: the monthly-optimal total is below the annual-optimal one. *)
Theorem C4_incumbent_breaks_the_dominance :
  analyze_arrangement_4 "cloudy" two_months_below = (Ok (-2), two_months_below)
  /\ analyze_arrangement_6 "cloudy" two_months_below
     = (Ok (-1), two_months_below)
  /\ ~ monthly_dominates_annual two_months_below "cloudy".
Proof.
  assert (Hyear : optimum two_months_below (range 1 13) "cloudy" = ((-1)%Z, -1)).
  { apply optimum_sentinel. intros t _. rewrite ghi_two_months_below.
    rewrite range_1_13. cbn. lra. }
  assert (Hjan : optimum two_months_below [1%Z] "cloudy" = ((-1)%Z, -1)).
  { apply optimum_sentinel. intros t _. rewrite ghi_two_months_below.
    cbn. lra. }
  assert (Hfeb : optimum two_months_below [2%Z] "cloudy" = ((-1)%Z, -1)).
  { apply optimum_sentinel. intros t _. rewrite ghi_two_months_below.
    cbn. lra. }
  assert (H4 : sum_over (fun m => snd (optimum two_months_below [m] "cloudy"))
                        (range 1 13) = -2).
  { rewrite range_1_13. cbn [sum_over]. rewrite Hjan, Hfeb.
    rewrite !optimum_empty_period
      by (intros df Hdf; injection Hdf as <-; reflexivity).
    cbn [snd]. lra. }
  assert (E4 : analyze_arrangement_4 "cloudy" two_months_below
               = (Ok (-2), two_months_below))
    by (rewrite analyze_arrangement_4_run; now rewrite H4).
  assert (E6 : analyze_arrangement_6 "cloudy" two_months_below
               = (Ok (-1), two_months_below))
    by (rewrite analyze_arrangement_6_run; now rewrite Hyear).
  split; [exact E4|]. split; [exact E6|].
  intros (a4 & a6 & H4' & H6' & Hge).
  rewrite E4 in H4'. rewrite E6 in H6'.
  injection H4' as <-. injection H6' as <-. lra.
Qed.

(* ------------------------------------------------------------------ *)
(** ** The sliding-window analyser                                      *)
(* ------------------------------------------------------------------ *)

Lemma months_in_window_spec (i W : Z) : months_in_window i W = Spec.window W i.
Proof.
  unfold months_in_window, Spec.window, range. rewrite !map_map.
  replace (i + W - i)%Z with (W - 0)%Z by lia.
  apply map_ext. intros k. do 2 f_equal; lia.
Qed.

Lemma window_months_valid (W i m : Z) :
  In m (Spec.window W i) -> (1 <= m <= 12)%Z.
Proof.
  unfold Spec.window. rewrite in_map_iff. intros (k & <- & _).
  pose proof (Z.mod_pos_bound (i + k - 1) 12 ltac:(lia)). lia.
Qed.

Lemma window_nonempty (W i : Z) : (1 <= W)%Z -> Spec.window W i <> [].
Proof.
  intros HW E. apply (f_equal (@List.length Z)) in E.
  unfold Spec.window in E. rewrite length_map, range_length in E.
  cbn [List.length] in E. lia.
Qed.

Lemma last_cons {A : Type} (x d : A) (l : list A) : last (x :: l) d = last l x.
Proof.
  revert x d. induction l as [|y l IH]; intros x d; [reflexivity|].
  change (last (x :: y :: l) d) with (last (y :: l) d).
  now rewrite (IH y d), (IH y x).
Qed.

Lemma last_In {A : Type} (x : A) (l : list A) : In (last l x) (x :: l).
Proof.
  revert x. induction l as [|y l IH]; intros x; [now left|].
  right. rewrite last_cons. apply IH.
Qed.

(** The dict [month_names] holds the short name of each calendar month. *)
Lemma month_names_lookup (m : Z) :
  (1 <= m <= 12)%Z -> dict_lookup month_names m = Some (Spec.short_name m).
Proof.
  intros H.
  assert (C : (m = 1 \/ m = 2 \/ m = 3 \/ m = 4 \/ m = 5 \/ m = 6 \/ m = 7
               \/ m = 8 \/ m = 9 \/ m = 10 \/ m = 11 \/ m = 12)%Z) by lia.
  repeat (destruct C as [-> | C]; [reflexivity | ]). now subst.
Qed.

(** One iteration of the window loop, for a window of at least a month. *)
Lemma window_iteration (self : SolarAnalysis) W sky i (results : list WindowRow) :
  (1 <= W)%Z ->
  (first_month <- getitem_first (months_in_window i W) ;;
   start_month_name <- dict_getitem month_names first_month ;;
   last_month <- getitem_last (months_in_window i W) ;;
   end_month_name <- dict_getitem month_names last_month ;;
   ' (best_tilt, _) <- find_optimal_tilt (months_in_window i W) sky ;;
   ret (results ++
        [mkWindowRow
           (start_month_name ++ "-" ++ end_month_name)%string
           ("Optimal Tilt (" ++ capitalize sky ++ ")")%string best_tilt])) self
  = (Ok (results ++ [window_row self W sky i]), self).
Proof.
  intros HW. unfold window_row.
  pose proof (window_nonempty W i HW) as Hne.
  pose proof (window_months_valid W i) as Hval.
  rewrite <- months_in_window_spec in Hne, Hval.
  destruct (months_in_window i W) as [|x l] eqn:E; [congruence|].
  rewrite last_cons. cbn [hd].
  assert (Hx : (1 <= x <= 12)%Z) by (apply Hval; now left).
  assert (Hl : (1 <= last l x <= 12)%Z) by (apply Hval, last_In).
  unfold bind, getitem_first, getitem_last, dict_getitem, ret.
  rewrite (month_names_lookup x Hx), (month_names_lookup (last l x) Hl).
  rewrite find_optimal_tilt_run.
  destruct (optimum self (x :: l) sky). reflexivity.
Qed.

Lemma collect_rows {A B : Type} (g : A -> B) (l : list A) (acc : list B) :
  fold_left (fun results i => results ++ [g i]) l acc = acc ++ map g l.
Proof.
  revert acc. induction l as [|x l IH]; intros acc; simpl.
  - now rewrite app_nil_r.
  - rewrite IH, <- app_assoc. reflexivity.
Qed.

Lemma analyze_sliding_window_run (self : SolarAnalysis) W sky :
  (1 <= W)%Z ->
  analyze_sliding_window W sky self
  = (Ok (map (window_row self W sky) (range 1 13)), self).
Proof.
  intros HW. unfold analyze_sliding_window.
  rewrite (for_in_fold _ (fun results i => results ++ [window_row self W sky i])).
  - now rewrite collect_rows.
  - intros i results _. now apply window_iteration.
Qed.

Lemma window_row_label (self : SolarAnalysis) W sky i :
  (1 <= W)%Z ->
  Window (window_row self W sky i) = Spec.label (Spec.window W i).
Proof.
  intros HW. unfold window_row, Spec.label. cbn [Window].
  rewrite months_in_window_spec.
  pose proof (window_nonempty W i HW) as Hne.
  pose proof (window_months_valid W i) as Hval.
  destruct (Spec.window W i) as [|x l]; [congruence|].
  rewrite last_cons. cbn [hd].
  rewrite (month_names_lookup x) by (apply Hval; now left).
  now rewrite (month_names_lookup (last l x)) by (apply Hval, last_In).
Qed.

(** C6 (amended). For every window size [W >= 1] the sliding-window
    analyser returns twelve rows in ascending start month; for each start
    month [i] in [1..12], row [i] is for the months
    [((i + k - 1) mod 12) + 1], [k] in [0..W-1], wrapping from December
    to January: it is labelled with the short names of the first and the
    last of them and carries the tilt [find_optimal_tilt] returns for
    exactly those months.  For [W = 3] and start month 11 the months are
    [11, 12, 1] and the label is ["Nov-Jan"]. *)
Theorem C6_sliding_window_rows
        (self : SolarAnalysis) (W : Z) (sky : string) :
  (1 <= W)%Z ->
  sliding_window_contract self W sky
  /\ Spec.window 3 11 = [11; 12; 1]%Z
  /\ Spec.label (Spec.window 3 11) = "Nov-Jan"%string.
Proof.
  intros HW. split; [|split; reflexivity].
  exists (map (window_row self W sky) (range 1 13)).
  split; [now apply analyze_sliding_window_run|].
  split; [now rewrite length_map, range_length|].
  intros i Hi.
  exists (window_row self W sky i), (snd (optimum self (Spec.window W i) sky)).
  split; [|split; [|split]].
  - rewrite nth_error_map. unfold range.
    rewrite nth_error_map, nth_error_seq.
    replace (Z.to_nat (i - 1) <? Z.to_nat (13 - 1))%nat with true
      by (symmetry; apply Nat.ltb_lt; lia).
    cbn [option_map Nat.add].
    now replace (1 + Z.of_nat (Z.to_nat (i - 1)))%Z with i by lia.
  - apply months_in_window_spec.
  - now apply window_row_label.
  - rewrite find_optimal_tilt_run. unfold window_row. cbn [Optimal_Tilt].
    rewrite months_in_window_spec. now rewrite <- surjective_pairing.
Qed.

Lemma C6_witness :
  sliding_window_contract sunny 3 "cloudy"
  /\ Spec.window 3 11 = [11; 12; 1]%Z
  /\ Spec.label (Spec.window 3 11) = "Nov-Jan"%string.
Proof.
  apply (C6_sliding_window_rows sunny 3 "cloudy"). lia.
Defined.

(** C6, as stated for every window size, fails: with [W = 0] the window
    of the first start month is empty, its first month does not exist,
    and the analyser raises [IndexError] instead of returning rows. *)
Lemma C6_counterexample :
  analyze_sliding_window 0 "cloudy" sunny = (Raise IndexError, sunny)
  /\ ~ sliding_window_contract sunny 0 "cloudy".
Proof.
  assert (E : analyze_sliding_window 0 "cloudy" sunny = (Raise IndexError, sunny))
    by reflexivity.
  split; [exact E|].
  intros (rows & Hrun & _). rewrite E in Hrun. discriminate.
Qed.

(* ------------------------------------------------------------------ *)
(** ** The loader                                                       *)
(* ------------------------------------------------------------------ *)

Lemma prepare_row_some (c : CsvRow) (r : Row) :
  prepare_row c = Some r <->
  c = mkCsvRow (Some (Month r)) (Some (DHI r)) (Some (DNI r))
               (Some (Clearsky_DHI r)) (Some (Clearsky_DNI r))
               (Some (Declination_Angle r))
  /\ Declination_Angle_Rad r = np.radians (Declination_Angle r).
Proof.
  split.
  - unfold prepare_row. destruct c as [m a b c d e]; cbn.
    destruct m, a, b, c, d, e; try discriminate.
    intros H. injection H as <-. cbn. split; reflexivity.
  - intros [-> H]. unfold prepare_row. cbn. f_equal.
    destruct r as [m a b c d e f]. cbn in *. now rewrite H.
Qed.

Lemma prepare_row_missing (c : CsvRow) :
  has_missing_cell c -> prepare_row c = None.
Proof.
  unfold has_missing_cell, prepare_row.
  destruct (csv_Month c), (csv_DHI c), (csv_DNI c), (csv_Clearsky_DHI c),
    (csv_Clearsky_DNI c), (csv_Declination_Angle c); try reflexivity;
    intros H; repeat (destruct H as [H | H]; try discriminate).
Qed.

Lemma prepare_rows_app (a b : list CsvRow) :
  prepare_rows (a ++ b) = prepare_rows a ++ prepare_rows b.
Proof.
  induction a as [|c a IH]; simpl; [reflexivity|].
  destruct (prepare_row c); simpl; now rewrite IH.
Qed.

(** X1. The frame the loader prepares holds exactly the rows of the file
    whose six numeric cells all parsed, with their values unchanged and
    the declination converted to radians. *)
Theorem X1_loader_keeps_exactly_complete_rows (rows : list CsvRow) (r : Row) :
  In r (prepare_rows rows) <->
  (In (mkCsvRow (Some (Month r)) (Some (DHI r)) (Some (DNI r))
                (Some (Clearsky_DHI r)) (Some (Clearsky_DNI r))
                (Some (Declination_Angle r))) rows
   /\ Declination_Angle_Rad r = np.radians (Declination_Angle r)).
Proof.
  induction rows as [|c rows IH]; simpl; [tauto|].
  destruct (prepare_row c) as [r'|] eqn:E.
  - apply prepare_row_some in E. destruct E as [Ec Er]. simpl. rewrite IH.
    split.
    + intros [<- | [H1 H2]]; [|tauto]. split; [left; exact Ec | exact Er].
    + intros [[H | H] Hr]; [|tauto]. left.
      rewrite Ec in H. injection H as H1 H2 H3 H4 H5 H6.
      destruct r, r'; cbn in *. subst. reflexivity.
  - rewrite IH. split; [tauto|]. intros [[H | H] Hr]; [|tauto].
    exfalso. assert (prepare_row c = Some r) by (apply prepare_row_some; auto).
    congruence.
Qed.

(** X2. The loader keeps the surviving rows in file order and never
    invents one; a row with a cell that did not parse is dropped whole,
    wherever it stands in the file. *)
Theorem X2_loader_drops_incomplete_rows_in_place
        (before after : list CsvRow) (c : CsvRow) :
  has_missing_cell c ->
  prepare_rows (before ++ c :: after)
  = prepare_rows before ++ prepare_rows after
  /\ (List.length (prepare_rows (before ++ c :: after))
      < List.length (before ++ c :: after))%nat.
Proof.
  intros H.
  assert (Hlen : forall l, (List.length (prepare_rows l) <= List.length l)%nat).
  { induction l as [|x l IH]; simpl; [lia|].
    destruct (prepare_row x); simpl; lia. }
  rewrite prepare_rows_app. simpl. rewrite (prepare_row_missing c H).
  split; [reflexivity|].
  rewrite !length_app. simpl.
  pose proof (Hlen before). pose proof (Hlen after). lia.
Qed.

Lemma X2_witness :
  prepare_rows ([complete_csv_row] ++ broken_csv_row :: [])
  = prepare_rows [complete_csv_row] ++ prepare_rows []
  /\ (List.length (prepare_rows ([complete_csv_row] ++ broken_csv_row :: []))
      < List.length ([complete_csv_row] ++ broken_csv_row :: []))%nat.
Proof.
  apply (X2_loader_drops_incomplete_rows_in_place
           [complete_csv_row] [] broken_csv_row).
  right. left. reflexivity.
Defined.

(* ------------------------------------------------------------------ *)
(** ** More on the irradiance calculator                                *)
(* ------------------------------------------------------------------ *)

Lemma ghi_same_months (self : SolarAnalysis) t (M1 M2 : list Z) sky :
  (forall m, In m M1 <-> In m M2) ->
  ghi self t M1 sky = ghi self t M2 sky.
Proof.
  intros H. destruct (data self) as [df|] eqn:Hd.
  - rewrite !(ghi_loaded self df) by assumption. f_equal.
    apply filter_ext. intros r. now apply isin_same.
  - now rewrite !ghi_not_loaded by assumption.
Qed.

(** The GHI over distinct months is the sum of the GHIs month by month. *)
Lemma ghi_by_month (self : SolarAnalysis) t (L : list Z) sky :
  NoDup L ->
  ghi self t L sky = sum_over (fun m => ghi self t [m] sky) L.
Proof.
  intros HL. destruct (data self) as [df|] eqn:Hd.
  - rewrite (ghi_loaded self df) by assumption.
    rewrite sum_by_month by assumption.
    apply sum_over_ext. intros m _. now rewrite (ghi_loaded self df).
  - rewrite ghi_not_loaded by assumption.
    rewrite (sum_over_ext _ (fun _ => 0)).
    + now rewrite sum_over_zero.
    + intros m _. now apply ghi_not_loaded.
Qed.

Lemma isin_app (m : Z) (M1 M2 : list Z) :
  isin m (M1 ++ M2) = isin m M1 || isin m M2.
Proof. unfold isin. apply existsb_app. Qed.

Lemma ghi_app_disjoint (self : SolarAnalysis) t (M1 M2 : list Z) sky :
  (forall m, In m M1 -> ~ In m M2) ->
  ghi self t (M1 ++ M2) sky = ghi self t M1 sky + ghi self t M2 sky.
Proof.
  intros Hdis. destruct (data self) as [df|] eqn:Hd.
  - rewrite !(ghi_loaded self df) by assumption.
    rewrite !sum_over_filter_if, <- sum_over_plus.
    apply sum_over_ext. intros r _. rewrite isin_app.
    destruct (isin (Month r) M1) eqn:E1, (isin (Month r) M2) eqn:E2;
      cbn [orb]; try lra.
    exfalso. apply isin_In in E1, E2. exact (Hdis _ E1 E2).
  - rewrite !ghi_not_loaded by assumption. lra.
Qed.

Lemma cos_minus_2PI (x : R) : Rtrigo_def.cos (x - 2 * PI) = Rtrigo_def.cos x.
Proof.
  rewrite cos_minus, cos_2PI, sin_2PI. lra.
Qed.

Lemma row_output_period t sky r :
  row_output (t + 360) sky r = row_output t sky r.
Proof.
  unfold row_output.
  replace (LATITUDE_RADIANS - np.radians (t + 360) - Declination_Angle_Rad r)
    with (LATITUDE_RADIANS - np.radians t - Declination_Angle_Rad r - 2 * PI)
    by (unfold np.radians; field).
  now rewrite cos_minus_2PI.
Qed.

Lemma row_output_bounds t sky r :
  0 <= selected_dni sky r ->
  selected_dhi sky r <= row_output t sky r
  <= selected_dhi sky r + selected_dni sky r.
Proof.
  unfold selected_dni, selected_dhi, row_output. intros H.
  match goal with |- context [Rgtb ?c 0] =>
    pose proof (COS_bound (LATITUDE_RADIANS - np.radians t
                           - Declination_Angle_Rad r)) as [_ Hc];
    destruct (Rgtb c 0) eqn:G; [apply Rgtb_true in G; nra | lra] end.
Qed.

(** X4. The calculator is periodic in the tilt with period 360 degrees:
    the tilt enters only through [cos(latitude - radians(tilt) -
    declination)], so any tilt, of any sign and size, is accepted and
    [tilt + 360] gives the same GHI as [tilt]. *)
Theorem X4_tilt_is_periodic
        (self : SolarAnalysis) (t : R) (M : list Z) (sky : string) :
  calculate_ghi_for_tilt (t + 360) M sky self
  = calculate_ghi_for_tilt t M sky self.
Proof.
  rewrite !calculate_ghi_for_tilt_run. do 2 f_equal.
  destruct (data self) as [df|] eqn:Hd.
  - rewrite !(ghi_loaded self df) by assumption.
    apply sum_over_ext. intros r _. apply row_output_period.
  - now rewrite !ghi_not_loaded by assumption.
Qed.

(** X5. When the selected direct-irradiance column is non-negative, the
    GHI at any tilt lies between the diffuse total of the selected months
    and their diffuse-plus-direct total: tilting can forfeit the direct
    beam but never more, and never gains beyond it. *)
Theorem X5_ghi_between_diffuse_and_total
        (self : SolarAnalysis) (df : DataFrame)
        (t : R) (M : list Z) (sky : string) :
  data self = Some df ->
  nonneg_direct sky df ->
  let period := filter (fun r => isin (Month r) M) df in
  exists v,
    calculate_ghi_for_tilt t M sky self = (Ok v, self)
    /\ sum_over (selected_dhi sky) period <= v
    /\ v <= sum_over (fun r => selected_dhi sky r + selected_dni sky r) period.
Proof.
  intros Hd Hnn period. exists (ghi self t M sky).
  split; [apply calculate_ghi_for_tilt_run|].
  rewrite (ghi_loaded self df) by assumption. fold period.
  assert (Hin : forall r, In r period -> 0 <= selected_dni sky r).
  { intros r Hr. apply Hnn. unfold period in Hr.
    now apply filter_In in Hr. }
  split; apply sum_over_le; intros r Hr;
    apply (row_output_bounds t sky r (Hin r Hr)).
Qed.

Lemma X5_witness :
  let period := filter (fun r => isin (Month r) [1%Z]) [january_hour 3] in
  exists v,
    calculate_ghi_for_tilt 30 [1%Z] "cloudy" sunny = (Ok v, sunny)
    /\ sum_over (selected_dhi "cloudy") period <= v
    /\ v <= sum_over (fun r => selected_dhi "cloudy" r
                               + selected_dni "cloudy" r) period.
Proof.
  apply (X5_ghi_between_diffuse_and_total sunny [january_hour 3] 30 [1%Z]
           "cloudy" eq_refl).
  intros r [<- | []]. cbn. lra.
Defined.

(** X6. The calculator is additive over disjoint month lists: the GHI of
    two periods that share no month is the sum of their GHIs. *)
Theorem X6_ghi_additive_over_disjoint_periods
        (self : SolarAnalysis) (t : R) (M1 M2 : list Z) (sky : string) :
  (forall m, In m M1 -> ~ In m M2) ->
  exists v1 v2,
    calculate_ghi_for_tilt t M1 sky self = (Ok v1, self)
    /\ calculate_ghi_for_tilt t M2 sky self = (Ok v2, self)
    /\ calculate_ghi_for_tilt t (M1 ++ M2) sky self = (Ok (v1 + v2), self).
Proof.
  intros H. exists (ghi self t M1 sky), (ghi self t M2 sky).
  rewrite !calculate_ghi_for_tilt_run. repeat split.
  now rewrite ghi_app_disjoint.
Qed.

Lemma X6_witness :
  exists v1 v2,
    calculate_ghi_for_tilt 30 SUMMER_MONTHS "clear" two_seasons
    = (Ok v1, two_seasons)
    /\ calculate_ghi_for_tilt 30 WINTER_MONTHS "clear" two_seasons
       = (Ok v2, two_seasons)
    /\ calculate_ghi_for_tilt 30 (SUMMER_MONTHS ++ WINTER_MONTHS) "clear"
         two_seasons
       = (Ok (v1 + v2), two_seasons).
Proof.
  apply (X6_ghi_additive_over_disjoint_periods two_seasons 30
           SUMMER_MONTHS WINTER_MONTHS "clear").
  intros m H1 H2. cbn in H1, H2. lia.
Defined.

(* ------------------------------------------------------------------ *)
(** ** More on the optimiser and the arrangements                       *)
(* ------------------------------------------------------------------ *)

(** When all candidates tie above the initial incumbent, the first one,
    tilt [0], is returned. *)
Lemma optimum_all_tied (self : SolarAnalysis) months sky (c : R) :
  (forall t, (0 <= t <= 90)%Z -> ghi self (IZR t) months sky = c) ->
  c > -1 ->
  optimum self months sky = (0%Z, c).
Proof.
  intros Hc Hgt.
  destruct (optimum_argmax self months sky) as (Hb & Hm & _ & Hfirst).
  { exists 0%Z. split; [lia|]. rewrite Hc by lia. exact Hgt. }
  rewrite Hc in Hm by assumption.
  destruct (optimum self months sky) as [bt mg]. cbn [fst snd] in *.
  f_equal; [|assumption].
  destruct (Z.eq_dec bt 0) as [|Hne]; [assumption|].
  assert (Hlt : ghi self (IZR 0) months sky < mg) by (apply Hfirst; lia).
  rewrite Hc in Hlt by lia. lra.
Qed.

Lemma nonneg_beats_incumbent (self : SolarAnalysis) months sky :
  nonneg_data self ->
  exists t, (0 <= t <= 90)%Z /\ ghi self (IZR t) months sky > -1.
Proof.
  intros H. exists 0%Z. split; [lia|].
  pose proof (ghi_nonneg self (IZR 0) months sky H). lra.
Qed.

(** On non-negative data the search returns a candidate, with its GHI. *)
Lemma optimum_nonneg (self : SolarAnalysis) months sky :
  nonneg_data self ->
  (0 <= fst (optimum self months sky) <= 90)%Z
  /\ snd (optimum self months sky)
     = ghi self (IZR (fst (optimum self months sky))) months sky.
Proof.
  intros H.
  destruct (optimum_argmax self months sky (nonneg_beats_incumbent _ _ _ H))
    as (Hb & Hm & _). split; assumption.
Qed.

(** X7. Ties go to the lowest tilt: when the selected months carry no
    direct irradiance, every tilt gives the same GHI, the diffuse total,
    and (that total being above the initial incumbent [-1])
    [find_optimal_tilt] returns tilt [0] with it. *)
Theorem X7_diffuse_only_period_returns_tilt_zero
        (self : SolarAnalysis) (df : DataFrame) (M : list Z) (sky : string) :
  data self = Some df ->
  (forall r, In r df -> isin (Month r) M = true -> selected_dni sky r = 0) ->
  let diffuse :=
    sum_over (selected_dhi sky) (filter (fun r => isin (Month r) M) df) in
  diffuse > -1 ->
  (forall t, calculate_ghi_for_tilt t M sky self = (Ok diffuse, self))
  /\ find_optimal_tilt M sky self = (Ok (0%Z, diffuse), self).
Proof.
  intros Hd Hz diffuse Hgt.
  assert (E : forall t, ghi self t M sky = diffuse).
  { intros t. rewrite (ghi_loaded self df) by assumption.
    apply sum_over_ext. intros r Hr. apply filter_In in Hr.
    destruct Hr as [Hr Hm]. specialize (Hz r Hr Hm).
    unfold row_output, selected_dhi. unfold selected_dni in Hz. rewrite Hz.
    match goal with |- context [Rgtb ?c 0] => destruct (Rgtb c 0) end; lra. }
  split.
  - intros t. rewrite calculate_ghi_for_tilt_run. now rewrite E.
  - rewrite find_optimal_tilt_run. f_equal. f_equal.
    apply optimum_all_tied; [|exact Hgt]. intros t _. apply E.
Qed.

Lemma X7_witness :
  let diffuse :=
    sum_over (selected_dhi "cloudy")
             (filter (fun r => isin (Month r) [1%Z]) [january_hour 3]) in
  (forall t, calculate_ghi_for_tilt t [1%Z] "cloudy" sunny = (Ok diffuse, sunny))
  /\ find_optimal_tilt [1%Z] "cloudy" sunny = (Ok (0%Z, diffuse), sunny).
Proof.
  apply (X7_diffuse_only_period_returns_tilt_zero sunny [january_hour 3]
           [1%Z] "cloudy" eq_refl).
  - intros r [<- | []] _. reflexivity.
  - cbn. lra.
Defined.

Lemma analyze_arrangement_1_run (self : SolarAnalysis) sky :
  analyze_arrangement_1 sky self = (Ok (ghi self 0 (range 1 13) sky), self).
Proof. apply calculate_ghi_for_tilt_run. Qed.

Lemma analyze_arrangement_2_run (self : SolarAnalysis) sky :
  analyze_arrangement_2 sky self
  = (Ok (ghi self LATITUDE_DEGREES (range 1 13) sky), self).
Proof. apply calculate_ghi_for_tilt_run. Qed.

Lemma analyze_arrangement_3_run (self : SolarAnalysis) sky :
  analyze_arrangement_3 sky self
  = (Ok (ghi self (LATITUDE_DEGREES - EARTH_AXIAL_TILT / 2) SUMMER_MONTHS sky
         + ghi self (LATITUDE_DEGREES + EARTH_AXIAL_TILT / 2) WINTER_MONTHS sky),
     self).
Proof.
  unfold analyze_arrangement_3, bind.
  now rewrite !calculate_ghi_for_tilt_run.
Qed.

Lemma analyze_arrangement_5_run (self : SolarAnalysis) sky :
  analyze_arrangement_5 sky self
  = (Ok (snd (optimum self SUMMER_MONTHS sky)
         + snd (optimum self WINTER_MONTHS sky)), self).
Proof.
  unfold analyze_arrangement_5, bind. rewrite find_optimal_tilt_run.
  destruct (optimum self SUMMER_MONTHS sky). rewrite find_optimal_tilt_run.
  destruct (optimum self WINTER_MONTHS sky). reflexivity.
Qed.

Lemma seasons_cover_the_year (m : Z) :
  In m (SUMMER_MONTHS ++ WINTER_MONTHS) <-> In m (range 1 13).
Proof. rewrite in_range. cbn. lia. Qed.

Lemma seasons_disjoint (m : Z) : In m SUMMER_MONTHS -> ~ In m WINTER_MONTHS.
Proof. cbn. lia. Qed.

Lemma SUMMER_MONTHS_NoDup : NoDup SUMMER_MONTHS.
Proof. repeat (constructor; [cbn; lia | ]). constructor. Qed.

Lemma WINTER_MONTHS_NoDup : NoDup WINTER_MONTHS.
Proof. repeat (constructor; [cbn; lia | ]). constructor. Qed.

(** The GHI of a tilt over the year is its summer GHI plus its winter
    GHI. *)
Lemma ghi_year_by_season (self : SolarAnalysis) t sky :
  ghi self t (range 1 13) sky
  = ghi self t SUMMER_MONTHS sky + ghi self t WINTER_MONTHS sky.
Proof.
  rewrite <- ghi_app_disjoint by apply seasons_disjoint.
  apply ghi_same_months. intros m. symmetry. apply seasons_cover_the_year.
Qed.

(** The twelve monthly maxima, regrouped by season. *)
Lemma monthly_maxima_by_season (g : Z -> R) :
  sum_over g (range 1 13) = sum_over g SUMMER_MONTHS + sum_over g WINTER_MONTHS.
Proof. rewrite range_1_13. cbn [sum_over SUMMER_MONTHS WINTER_MONTHS]. lra. Qed.

(** X8. In exact arithmetic, for every dataset and sky condition, each
    optimised arrangement (monthly, two-season, annual) yields at least
    the flat panel of Arrangement 1: tilt [0] is one of the candidates of
    every search, and the year's GHI at tilt [0] is the sum of its
    monthly, or seasonal, parts. *)
Theorem X8_optimised_arrangements_beat_flat_panel
        (self : SolarAnalysis) (sky : string) :
  exists a1 a4 a5 a6,
    analyze_arrangement_1 sky self = (Ok a1, self)
    /\ analyze_arrangement_4 sky self = (Ok a4, self)
    /\ analyze_arrangement_5 sky self = (Ok a5, self)
    /\ analyze_arrangement_6 sky self = (Ok a6, self)
    /\ a4 >= a1 /\ a5 >= a1 /\ a6 >= a1.
Proof.
  do 4 eexists.
  split; [apply analyze_arrangement_1_run|].
  split; [apply analyze_arrangement_4_run|].
  split; [apply analyze_arrangement_5_run|].
  split; [apply analyze_arrangement_6_run|].
  assert (H0 : (0 <= 0 <= 90)%Z) by lia.
  split; [|split].
  - rewrite ghi_year_by_month. apply Rle_ge, sum_over_le.
    intros m _. exact (optimum_dominates self [m] sky 0 H0).
  - rewrite ghi_year_by_season.
    pose proof (optimum_dominates self SUMMER_MONTHS sky 0 H0).
    pose proof (optimum_dominates self WINTER_MONTHS sky 0 H0).
    change (IZR 0) with 0 in *. lra.
  - apply Rle_ge. exact (optimum_dominates self (range 1 13) sky 0 H0).
Qed.

(** X9. In exact arithmetic, on non-negative irradiance data the
    optimised arrangements are ordered by how finely they adapt: monthly
    optimal (4) yields at least two-season optimal (5), which yields at
    least annual optimal (6). *)
Theorem X9_finer_optimisation_yields_more
        (self : SolarAnalysis) (sky : string) :
  nonneg_data self ->
  exists a4 a5 a6,
    analyze_arrangement_4 sky self = (Ok a4, self)
    /\ analyze_arrangement_5 sky self = (Ok a5, self)
    /\ analyze_arrangement_6 sky self = (Ok a6, self)
    /\ a4 >= a5 /\ a5 >= a6.
Proof.
  intros Hnn. do 3 eexists.
  split; [apply analyze_arrangement_4_run|].
  split; [apply analyze_arrangement_5_run|].
  split; [apply analyze_arrangement_6_run|].
  split.
  - destruct (optimum_nonneg self SUMMER_MONTHS sky Hnn) as [HbS ->].
    destruct (optimum_nonneg self WINTER_MONTHS sky Hnn) as [HbW ->].
    rewrite monthly_maxima_by_season.
    rewrite (ghi_by_month self _ SUMMER_MONTHS) by apply SUMMER_MONTHS_NoDup.
    rewrite (ghi_by_month self _ WINTER_MONTHS) by apply WINTER_MONTHS_NoDup.
    apply Rle_ge, Rplus_le_compat; apply sum_over_le; intros m _;
      now apply optimum_dominates.
  - destruct (optimum_nonneg self (range 1 13) sky Hnn) as [Hb ->].
    rewrite ghi_year_by_season.
    pose proof (optimum_dominates self SUMMER_MONTHS sky _ Hb).
    pose proof (optimum_dominates self WINTER_MONTHS sky _ Hb).
    lra.
Qed.

Lemma two_seasons_nonneg : nonneg_data two_seasons.
Proof.
  intros df Hdf. injection Hdf as <-.
  repeat constructor; cbn; lra.
Defined.

Lemma X9_witness :
  exists a4 a5 a6,
    analyze_arrangement_4 "cloudy" two_seasons = (Ok a4, two_seasons)
    /\ analyze_arrangement_5 "cloudy" two_seasons = (Ok a5, two_seasons)
    /\ analyze_arrangement_6 "cloudy" two_seasons = (Ok a6, two_seasons)
    /\ a4 >= a5 /\ a5 >= a6.
Proof.
  apply (X9_finer_optimisation_yields_more two_seasons "cloudy").
  exact two_seasons_nonneg.
Defined.

(* ------------------------------------------------------------------ *)
(** ** More on the sliding-window analyser                              *)
(* ------------------------------------------------------------------ *)

Lemma scan_ext (f g : Z -> R) (l : list Z) :
  (forall t, f t = g t) -> scan f l = scan g l.
Proof.
  intros H. unfold scan. generalize (-1, (-1)%Z).
  induction l as [|x l IH]; intros st; simpl; [reflexivity|].
  rewrite IH. f_equal. unfold improve. destruct st. now rewrite H.
Qed.

Lemma optimum_same_months (self : SolarAnalysis) (M1 M2 : list Z) sky :
  (forall m, In m M1 <-> In m M2) ->
  optimum self M1 sky = optimum self M2 sky.
Proof.
  intros H. rewrite !optimum_scan.
  rewrite (scan_ext (fun t => ghi self (IZR t) M1 sky)
                    (fun t => ghi self (IZR t) M2 sky)); [reflexivity|].
  intros t. now apply ghi_same_months.
Qed.

Lemma months_in_window_empty (i W : Z) :
  (W <= 0)%Z -> months_in_window i W = [].
Proof.
  intros H. unfold months_in_window, range.
  now replace (Z.to_nat (i + W - i)) with 0%nat by lia.
Qed.

(** A window of twelve months or more holds every calendar month. *)
Lemma long_window_is_the_year (W i m : Z) :
  (12 <= W)%Z -> In m (Spec.window W i) <-> In m (range 1 13).
Proof.
  intros HW. rewrite in_range. split.
  - intros H. apply window_months_valid in H. lia.
  - intros Hm. unfold Spec.window. apply in_map_iff.
    exists ((m - i) mod 12)%Z.
    pose proof (Z.mod_pos_bound (m - i) 12 ltac:(lia)) as Hk.
    split; [|apply in_range; lia].
    replace (i + (m - i) mod 12 - 1)%Z with ((i - 1) + (m - i) mod 12)%Z by lia.
    rewrite Zplus_mod_idemp_r.
    replace (i - 1 + (m - i))%Z with (m - 1)%Z by lia.
    rewrite Z.mod_small by lia. lia.
Qed.

Lemma window_first (W i : Z) :
  (1 <= W)%Z -> hd 0%Z (Spec.window W i) = ((i - 1) mod 12 + 1)%Z.
Proof.
  intros HW. unfold Spec.window, range.
  replace (Z.to_nat (W - 0)) with (S (Z.to_nat (W - 1))) by lia.
  cbn [seq map hd]. do 2 f_equal. lia.
Qed.

Lemma window_last (W i : Z) :
  (1 <= W)%Z -> last (Spec.window W i) 0%Z = ((i + W - 2) mod 12 + 1)%Z.
Proof.
  intros HW. unfold Spec.window.
  replace W with (Z.of_nat (S (Z.to_nat (W - 1)))) at 1 by lia.
  rewrite range_snoc0, map_app. cbn [map]. rewrite last_last.
  do 2 f_equal. lia.
Qed.

(** X10. A window size of zero or less makes the analyser raise
    [IndexError] at its first window (there is no first month to name);
    no frame is returned and the analyser is unchanged. *)
Theorem X10_empty_window_raises_IndexError
        (self : SolarAnalysis) (W : Z) (sky : string) :
  (W <= 0)%Z ->
  analyze_sliding_window W sky self = (Raise IndexError, self).
Proof.
  intros HW. unfold analyze_sliding_window. rewrite range_1_13.
  cbn [for_in]. unfold bind at 1.
  rewrite months_in_window_empty by assumption. reflexivity.
Qed.

Lemma X10_witness :
  analyze_sliding_window (-3) "clear" two_seasons
  = (Raise IndexError, two_seasons).
Proof.
  apply (X10_empty_window_raises_IndexError two_seasons (-3) "clear"). lia.
Defined.

(** X11. With a window of twelve months or more every window is the
    whole year: all twelve rows carry the tilt that [find_optimal_tilt]
    returns for the twelve months together, the tilt of Arrangement 6. *)
Theorem X11_year_long_windows_share_the_annual_tilt
        (self : SolarAnalysis) (W : Z) (sky : string) :
  (12 <= W)%Z ->
  exists rows annual_tilt max_ghi,
    analyze_sliding_window W sky self = (Ok rows, self)
    /\ find_optimal_tilt (range 1 13) sky self
       = (Ok (annual_tilt, max_ghi), self)
    /\ List.length rows = 12%nat
    /\ forall row, In row rows -> Optimal_Tilt row = annual_tilt.
Proof.
  intros HW.
  exists (map (window_row self W sky) (range 1 13)),
         (fst (optimum self (range 1 13) sky)),
         (snd (optimum self (range 1 13) sky)).
  split; [apply analyze_sliding_window_run; lia|].
  split; [rewrite find_optimal_tilt_run; now rewrite <- surjective_pairing|].
  split; [now rewrite length_map, range_length|].
  intros row Hrow. apply in_map_iff in Hrow. destruct Hrow as (i & <- & _).
  unfold window_row. cbn [Optimal_Tilt].
  rewrite (optimum_same_months self (months_in_window i W) (range 1 13) sky);
    [reflexivity|].
  intros m. rewrite months_in_window_spec. now apply long_window_is_the_year.
Qed.

Lemma X11_witness :
  exists rows annual_tilt max_ghi,
    analyze_sliding_window 12 "cloudy" two_seasons = (Ok rows, two_seasons)
    /\ find_optimal_tilt (range 1 13) "cloudy" two_seasons
       = (Ok (annual_tilt, max_ghi), two_seasons)
    /\ List.length rows = 12%nat
    /\ forall row, In row rows -> Optimal_Tilt row = annual_tilt.
Proof.
  apply (X11_year_long_windows_share_the_annual_tilt two_seasons 12 "cloudy").
  lia.
Defined.

(** X12. On non-negative irradiance data, every tilt the sliding-window
    analyser reports is one of the candidates [0..90]. *)
Theorem X12_window_tilts_stay_in_the_search_domain
        (self : SolarAnalysis) (W : Z) (sky : string) :
  nonneg_data self ->
  (1 <= W)%Z ->
  exists rows,
    analyze_sliding_window W sky self = (Ok rows, self)
    /\ forall row, In row rows -> (0 <= Optimal_Tilt row <= 90)%Z.
Proof.
  intros Hnn HW. exists (map (window_row self W sky) (range 1 13)).
  split; [now apply analyze_sliding_window_run|].
  intros row Hrow. apply in_map_iff in Hrow. destruct Hrow as (i & <- & _).
  unfold window_row. cbn [Optimal_Tilt].
  now apply optimum_nonneg.
Qed.

Lemma X12_witness :
  exists rows,
    analyze_sliding_window 3 "cloudy" two_seasons = (Ok rows, two_seasons)
    /\ forall row, In row rows -> (0 <= Optimal_Tilt row <= 90)%Z.
Proof.
  apply (X12_window_tilts_stay_in_the_search_domain two_seasons 3 "cloudy").
  - exact two_seasons_nonneg.
  - lia.
Defined.

(** X13. The label of a window depends on the window size only modulo
    twelve: sizes [W] and [W + 12] produce the same twelve labels, in the
    same order (a window of 15 months is labelled like one of 3). *)
Theorem X13_window_labels_wrap_every_twelve_months
        (self : SolarAnalysis) (W : Z) (sky : string) :
  (1 <= W)%Z ->
  exists rows rows',
    analyze_sliding_window W sky self = (Ok rows, self)
    /\ analyze_sliding_window (W + 12) sky self = (Ok rows', self)
    /\ map Window rows' = map Window rows.
Proof.
  intros HW.
  exists (map (window_row self W sky) (range 1 13)),
         (map (window_row self (W + 12) sky) (range 1 13)).
  split; [now apply analyze_sliding_window_run|].
  split; [apply analyze_sliding_window_run; lia|].
  rewrite !map_map. apply map_ext. intros i.
  rewrite !window_row_label by lia. unfold Spec.label.
  rewrite !window_first, !window_last by lia.
  replace (i + (W + 12) - 2)%Z with (i + W - 2 + 1 * 12)%Z by lia.
  now rewrite Z.mod_add by lia.
Qed.

Lemma X13_witness :
  exists rows rows',
    analyze_sliding_window 3 "cloudy" sunny = (Ok rows, sunny)
    /\ analyze_sliding_window (3 + 12) "cloudy" sunny = (Ok rows', sunny)
    /\ map Window rows' = map Window rows.
Proof.
  apply (X13_window_labels_wrap_every_twelve_months sunny 3 "cloudy"). lia.
Defined.

(* ------------------------------------------------------------------ *)
(** ** The monthly table of generate_visualizations.py                  *)
(* ------------------------------------------------------------------ *)

Lemma list_comp_run {S A B : Type} (f : A -> Method S B) (g : A -> B)
      (self : S) (xs : list A) :
  (forall x, In x xs -> f x self = (Ok (g x), self)) ->
  list_comp xs f self = (Ok (map g xs), self).
Proof.
  intros H. unfold list_comp.
  rewrite (for_in_fold _ (fun acc x => acc ++ [g x])).
  - now rewrite collect_rows.
  - intros x acc Hx. unfold bind. now rewrite (H x Hx).
Qed.

Lemma monthly_tilts_arr4_run (self : SolarAnalysis) sky :
  Viz.monthly_tilts_arr4 sky self
  = (Ok (map (fun m => fst (optimum self [m] sky)) (range 1 13)), self).
Proof.
  apply list_comp_run. intros m _. unfold bind.
  rewrite find_optimal_tilt_run. destruct (optimum self [m] sky). reflexivity.
Qed.

Lemma getitem_month {S A : Type} (g : Z -> A) (i : nat) (self : S) :
  (i < 12)%nat ->
  getitem (map g (range 1 13)) i self = (Ok (g (Z.of_nat i + 1)%Z), self).
Proof.
  intros Hi. unfold getitem, range.
  rewrite !nth_error_map, nth_error_seq.
  replace (i <? Z.to_nat (13 - 1))%nat with true
    by (symmetry; apply Nat.ltb_lt; lia).
  cbn [option_map Nat.add].
  now replace (1 + Z.of_nat i)%Z with (Z.of_nat i + 1)%Z by lia.
Qed.

Lemma enumerate_month_names (p : nat * string) :
  In p (enumerate Viz.month_names) ->
  (fst p < 12)%nat /\ snd p = nth (fst p) Viz.month_names ""%string.
Proof.
  cbn. intros H.
  repeat (destruct H as [<- | H]; [split; [cbn; lia | reflexivity] | ]).
  contradiction.
Qed.

(** The table is built without an exception, a row per calendar month. *)
Lemma get_monthly_ghi_data_run (self : SolarAnalysis) sky :
  Viz.get_monthly_ghi_data sky self
  = (Ok (map (monthly_row self sky) (range 1 13)), self).
Proof.
  unfold Viz.get_monthly_ghi_data. unfold bind at 1.
  rewrite monthly_tilts_arr4_run.
  unfold bind at 1. rewrite find_optimal_tilt_run.
  destruct (optimum self SUMMER_MONTHS sky) as [bS mS] eqn:ES.
  unfold bind at 1. rewrite find_optimal_tilt_run.
  destruct (optimum self WINTER_MONTHS sky) as [bW mW] eqn:EW.
  unfold bind at 1. rewrite find_optimal_tilt_run.
  destruct (optimum self (range 1 13) sky) as [bA mA] eqn:EA.
  rewrite (for_in_fold _
             (fun acc p => acc ++ [monthly_row self sky (Z.of_nat (fst p) + 1)])).
  - rewrite collect_rows. cbn [app].
    rewrite <- (map_map (fun p : nat * string => (Z.of_nat (fst p) + 1)%Z)
                        (monthly_row self sky)).
    reflexivity.
  - intros [i name] acc Hp.
    apply enumerate_month_names in Hp. cbn [fst snd] in Hp.
    destruct Hp as [Hi ->].
    unfold bind. rewrite !calculate_ghi_for_tilt_run.
    rewrite (getitem_month (fun m => fst (optimum self [m] sky)) i self Hi).
    rewrite calculate_ghi_for_tilt_run.
    unfold Viz.monthly_tilts_arr5.
    rewrite (getitem_month
               (fun m => if isin m SUMMER_MONTHS then bS else bW) i self Hi).
    rewrite !calculate_ghi_for_tilt_run.
    unfold monthly_row, ret. rewrite ES, EW, EA. cbn [fst].
    now replace (Z.to_nat (Z.of_nat i + 1 - 1)) with i by lia.
Qed.

(** X14. [get_monthly_ghi_data] always returns a table of twelve rows,
    indexed ["Jan"] to ["Dec"] in calendar order; its look-ups into the
    per-month tilt lists never run past their end, and the analyser is
    unchanged. *)
Theorem X14_monthly_table_has_a_row_per_month
        (self : SolarAnalysis) (sky : string) :
  exists table,
    Viz.get_monthly_ghi_data sky self = (Ok table, self)
    /\ map Viz.Month_name table = Viz.month_names.
Proof.
  exists (map (monthly_row self sky) (range 1 13)).
  split; [apply get_monthly_ghi_data_run|].
  rewrite map_map, range_1_13. reflexivity.
Qed.

(** Season membership of each calendar month, evaluated. *)
Ltac season_of_month :=
  repeat match goal with
    | |- context [isin ?m SUMMER_MONTHS] =>
        let b := eval vm_compute in (isin m SUMMER_MONTHS) in
        change (isin m SUMMER_MONTHS) with b
    end;
  cbv iota.

(** A column that uses one tilt in summer months and another in winter
    months sums to the summer GHI of the first plus the winter GHI of the
    second. *)
Lemma seasonal_column_total (self : SolarAnalysis) sky (ts tw : R) :
  sum_over (fun m => ghi self (if isin m SUMMER_MONTHS then ts else tw) [m] sky)
           (range 1 13)
  = ghi self ts SUMMER_MONTHS sky + ghi self tw WINTER_MONTHS sky.
Proof.
  rewrite (ghi_by_month self ts SUMMER_MONTHS) by apply SUMMER_MONTHS_NoDup.
  rewrite (ghi_by_month self tw WINTER_MONTHS) by apply WINTER_MONTHS_NoDup.
  rewrite range_1_13. unfold sum_over at 1.
  cbn [sum_over SUMMER_MONTHS WINTER_MONTHS].
  season_of_month. lra.
Qed.

(** X15. The fixed-tilt columns of the monthly table add up to the
    annual figures: the twelve entries of column 1, 2 and 3 sum to what
    [analyze_arrangement_1], [_2] and [_3] return, for every dataset. *)
Theorem X15_fixed_columns_sum_to_annual_totals
        (self : SolarAnalysis) (sky : string) :
  exists table a1 a2 a3,
    Viz.get_monthly_ghi_data sky self = (Ok table, self)
    /\ analyze_arrangement_1 sky self = (Ok a1, self)
    /\ analyze_arrangement_2 sky self = (Ok a2, self)
    /\ analyze_arrangement_3 sky self = (Ok a3, self)
    /\ np.sum (map Viz.Arr_1 table) = a1
    /\ np.sum (map Viz.Arr_2 table) = a2
    /\ np.sum (map Viz.Arr_3 table) = a3.
Proof.
  do 4 eexists.
  split; [apply get_monthly_ghi_data_run|].
  split; [apply analyze_arrangement_1_run|].
  split; [apply analyze_arrangement_2_run|].
  split; [apply analyze_arrangement_3_run|].
  rewrite !map_map, !np_sum_map. cbn [monthly_row Viz.Arr_1 Viz.Arr_2 Viz.Arr_3].
  split; [|split].
  - symmetry. apply ghi_year_by_month.
  - symmetry. apply ghi_year_by_month.
  - apply seasonal_column_total.
Qed.

(** On non-negative data the three optimised columns hold, month by
    month, the GHI of the tilt found for that month's period. *)
Lemma optimised_columns_total (self : SolarAnalysis) sky :
  nonneg_data self ->
  sum_over (fun m => Viz.Arr_4 (monthly_row self sky m)) (range 1 13)
  = sum_over (fun m => snd (optimum self [m] sky)) (range 1 13)
  /\ sum_over (fun m => Viz.Arr_5 (monthly_row self sky m)) (range 1 13)
     = snd (optimum self SUMMER_MONTHS sky) + snd (optimum self WINTER_MONTHS sky)
  /\ sum_over (fun m => Viz.Arr_6 (monthly_row self sky m)) (range 1 13)
     = snd (optimum self (range 1 13) sky).
Proof.
  intros Hnn. cbn [monthly_row Viz.Arr_4 Viz.Arr_5 Viz.Arr_6].
  split; [|split].
  - apply sum_over_ext. intros m _.
    now destruct (optimum_nonneg self [m] sky Hnn) as [_ ->].
  - destruct (optimum_nonneg self SUMMER_MONTHS sky Hnn) as [_ ->].
    destruct (optimum_nonneg self WINTER_MONTHS sky Hnn) as [_ ->].
    rewrite <- seasonal_column_total.
    apply sum_over_ext. intros m _.
    now destruct (isin m SUMMER_MONTHS).
  - destruct (optimum_nonneg self (range 1 13) sky Hnn) as [_ ->].
    symmetry. apply ghi_year_by_month.
Qed.

(** X16. On non-negative irradiance data the optimised columns of the
    monthly table add up to the annual figures as well: columns 4, 5 and
    6 sum to what [analyze_arrangement_4], [_5] and [_6] return. *)
Theorem X16_optimised_columns_sum_to_annual_totals
        (self : SolarAnalysis) (sky : string) :
  nonneg_data self ->
  exists table a4 a5 a6,
    Viz.get_monthly_ghi_data sky self = (Ok table, self)
    /\ analyze_arrangement_4 sky self = (Ok a4, self)
    /\ analyze_arrangement_5 sky self = (Ok a5, self)
    /\ analyze_arrangement_6 sky self = (Ok a6, self)
    /\ np.sum (map Viz.Arr_4 table) = a4
    /\ np.sum (map Viz.Arr_5 table) = a5
    /\ np.sum (map Viz.Arr_6 table) = a6.
Proof.
  intros Hnn. do 4 eexists.
  split; [apply get_monthly_ghi_data_run|].
  split; [apply analyze_arrangement_4_run|].
  split; [apply analyze_arrangement_5_run|].
  split; [apply analyze_arrangement_6_run|].
  rewrite !map_map, !np_sum_map.
  exact (optimised_columns_total self sky Hnn).
Qed.

Lemma X16_witness :
  exists table a4 a5 a6,
    Viz.get_monthly_ghi_data "cloudy" two_seasons = (Ok table, two_seasons)
    /\ analyze_arrangement_4 "cloudy" two_seasons = (Ok a4, two_seasons)
    /\ analyze_arrangement_5 "cloudy" two_seasons = (Ok a5, two_seasons)
    /\ analyze_arrangement_6 "cloudy" two_seasons = (Ok a6, two_seasons)
    /\ np.sum (map Viz.Arr_4 table) = a4
    /\ np.sum (map Viz.Arr_5 table) = a5
    /\ np.sum (map Viz.Arr_6 table) = a6.
Proof.
  apply (X16_optimised_columns_sum_to_annual_totals two_seasons "cloudy").
  exact two_seasons_nonneg.
Defined.

(** In every month the monthly-optimal entry is at least the entry of a
    column whose tilt is a candidate. *)
Lemma monthly_optimal_entry_dominates (self : SolarAnalysis) sky (m : Z) :
  nonneg_data self ->
  Viz.Arr_4 (monthly_row self sky m) >= Viz.Arr_1 (monthly_row self sky m)
  /\ Viz.Arr_4 (monthly_row self sky m) >= Viz.Arr_5 (monthly_row self sky m)
  /\ Viz.Arr_4 (monthly_row self sky m) >= Viz.Arr_6 (monthly_row self sky m).
Proof.
  intros Hnn. cbn [monthly_row Viz.Arr_1 Viz.Arr_4 Viz.Arr_5 Viz.Arr_6].
  destruct (optimum_nonneg self [m] sky Hnn) as [_ <-].
  destruct (optimum_nonneg self SUMMER_MONTHS sky Hnn) as [HS _].
  destruct (optimum_nonneg self WINTER_MONTHS sky Hnn) as [HW _].
  destruct (optimum_nonneg self (range 1 13) sky Hnn) as [HA _].
  split; [|split]; apply Rle_ge.
  - apply (optimum_dominates self [m] sky 0). lia.
  - apply optimum_dominates. now destruct (isin m SUMMER_MONTHS).
  - now apply optimum_dominates.
Qed.

(** X17. On non-negative irradiance data, in every row of the monthly
    table the monthly-optimal column (4) is at least the flat-panel
    column (1), the two-season-optimal column (5) and the annual-optimal
    column (6): each of those uses a tilt that month's search considered. *)
Theorem X17_monthly_optimal_column_dominates
        (self : SolarAnalysis) (sky : string) :
  nonneg_data self ->
  exists table,
    Viz.get_monthly_ghi_data sky self = (Ok table, self)
    /\ forall row, In row table ->
         Viz.Arr_4 row >= Viz.Arr_1 row
         /\ Viz.Arr_4 row >= Viz.Arr_5 row
         /\ Viz.Arr_4 row >= Viz.Arr_6 row.
Proof.
  intros Hnn. eexists. split; [apply get_monthly_ghi_data_run|].
  intros row Hrow. apply in_map_iff in Hrow. destruct Hrow as (m & <- & _).
  now apply monthly_optimal_entry_dominates.
Qed.

Lemma X17_witness :
  exists table,
    Viz.get_monthly_ghi_data "clear" two_seasons = (Ok table, two_seasons)
    /\ forall row, In row table ->
         Viz.Arr_4 row >= Viz.Arr_1 row
         /\ Viz.Arr_4 row >= Viz.Arr_5 row
         /\ Viz.Arr_4 row >= Viz.Arr_6 row.
Proof.
  apply (X17_monthly_optimal_column_dominates two_seasons "clear").
  exact two_seasons_nonneg.
Defined.

(* ------------------------------------------------------------------ *)
(** ** The cumulative-gain series                                       *)
(* ------------------------------------------------------------------ *)

Lemma cumsum_from_length (a : R) (xs : list R) :
  List.length (cumsum_from a xs) = List.length xs.
Proof.
  revert a. induction xs as [|x xs IH]; intros a; simpl; [reflexivity|].
  now rewrite IH.
Qed.

Lemma cumsum_from_nondecreasing (a : R) (xs : list R) :
  (forall x, In x xs -> 0 <= x) -> nondecreasing_from a (cumsum_from a xs).
Proof.
  revert a. induction xs as [|x xs IH]; intros a H; simpl; [exact I|].
  split.
  - pose proof (H x (or_introl eq_refl)). lra.
  - apply IH. intros y Hy. apply H. now right.
Qed.

Lemma cumsum_from_last (a : R) (xs : list R) :
  last (cumsum_from a xs) a = a + sum_over (fun x => x) xs.
Proof.
  revert a. induction xs as [|x xs IH]; intros a; simpl; [lra|].
  destruct (cumsum_from (a + x) xs) as [|y ys] eqn:E.
  - destruct xs; [simpl; lra | discriminate].
  - rewrite <- E.
    replace (last (cumsum_from (a + x) xs) a)
      with (last (cumsum_from (a + x) xs) (a + x)).
    + rewrite IH. lra.
    + rewrite E. now rewrite !last_cons.
Qed.

(** X18. The cumulative gain of the monthly-optimal arrangement over the
    annual-optimal one, as [plot_cumulative_gain] computes it from the
    monthly table on non-negative data: twelve running totals that start
    at or above zero, never decrease, and end at Arrangement 4's annual
    total minus Arrangement 6's. *)
Theorem X18_cumulative_gain_of_monthly_over_annual
        (self : SolarAnalysis) (sky : string) :
  nonneg_data self ->
  exists table gain a4 a6,
    Viz.get_monthly_ghi_data sky self = (Ok table, self)
    /\ Viz.plot_cumulative_gain_series table
         "Arr 6: Annual Optimal" "Arr 4: Monthly Optimal" self
       = (Ok gain, self)
    /\ analyze_arrangement_4 sky self = (Ok a4, self)
    /\ analyze_arrangement_6 sky self = (Ok a6, self)
    /\ List.length gain = 12%nat
    /\ nondecreasing_from 0 gain
    /\ last gain 0 = a4 - a6.
Proof.
  intros Hnn.
  exists (map (monthly_row self sky) (range 1 13)).
  exists (cumsum (map (fun m => Viz.Arr_4 (monthly_row self sky m)
                               - Viz.Arr_6 (monthly_row self sky m))
                      (range 1 13))).
  do 2 eexists.
  split; [apply get_monthly_ghi_data_run|].
  split.
  { unfold Viz.plot_cumulative_gain_series, Viz.getitem_column, bind, ret.
    cbn [Viz.column_of String.eqb Ascii.eqb Bool.eqb].
    rewrite !map_map, (zip_with_map Rminus). reflexivity. }
  split; [apply analyze_arrangement_4_run|].
  split; [apply analyze_arrangement_6_run|].
  unfold cumsum. split; [|split].
  - now rewrite cumsum_from_length, length_map, range_length.
  - apply cumsum_from_nondecreasing. intros x Hx.
    apply in_map_iff in Hx. destruct Hx as (m & <- & _).
    destruct (monthly_optimal_entry_dominates self sky m Hnn) as (_ & _ & H).
    lra.
  - rewrite cumsum_from_last.
    destruct (optimised_columns_total self sky Hnn) as (H4 & _ & H6).
    rewrite <- H4, <- H6. clear H4 H6.
    generalize (range 1 13). intros l.
    induction l as [|m l IH]; simpl in *; lra.
Qed.

Lemma X18_witness :
  exists table gain a4 a6,
    Viz.get_monthly_ghi_data "cloudy" two_seasons = (Ok table, two_seasons)
    /\ Viz.plot_cumulative_gain_series table
         "Arr 6: Annual Optimal" "Arr 4: Monthly Optimal" two_seasons
       = (Ok gain, two_seasons)
    /\ analyze_arrangement_4 "cloudy" two_seasons = (Ok a4, two_seasons)
    /\ analyze_arrangement_6 "cloudy" two_seasons = (Ok a6, two_seasons)
    /\ List.length gain = 12%nat
    /\ nondecreasing_from 0 gain
    /\ last gain 0 = a4 - a6.
Proof.
  apply (X18_cumulative_gain_of_monthly_over_annual two_seasons "cloudy").
  exact two_seasons_nonneg.
Defined.

(* ------------------------------------------------------------------ *)
(** ** The tilt chart, the windows and the table agree                  *)
(* ------------------------------------------------------------------ *)

Lemma plot_tilt_strategies_tilts_run (self : SolarAnalysis) sky :
  Viz.plot_tilt_strategies_tilts sky self
  = (Ok (Viz.mkTiltStrategies
           (repeat 0%Z 12)
           (repeat LATITUDE_DEGREES 12)
           (map (fun m => if isin m SUMMER_MONTHS
                          then LATITUDE_DEGREES - EARTH_AXIAL_TILT / 2
                          else LATITUDE_DEGREES + EARTH_AXIAL_TILT / 2)
                (range 1 13))
           (map (fun m => fst (optimum self [m] sky)) (range 1 13))
           (map (fun m => if isin m SUMMER_MONTHS
                          then fst (optimum self SUMMER_MONTHS sky)
                          else fst (optimum self WINTER_MONTHS sky))
                (range 1 13))
           (repeat (fst (optimum self (range 1 13) sky)) 12)),
     self).
Proof.
  unfold Viz.plot_tilt_strategies_tilts. unfold bind at 1.
  rewrite (list_comp_run _ (fun m => fst (optimum self [m] sky))).
  2:{ intros m _. unfold bind. rewrite find_optimal_tilt_run.
      destruct (optimum self [m] sky). reflexivity. }
  unfold bind at 1. rewrite find_optimal_tilt_run.
  destruct (optimum self SUMMER_MONTHS sky) as [bS mS].
  unfold bind at 1. rewrite find_optimal_tilt_run.
  destruct (optimum self WINTER_MONTHS sky) as [bW mW].
  unfold bind at 1. rewrite find_optimal_tilt_run.
  destruct (optimum self (range 1 13) sky) as [bA mA].
  reflexivity.
Qed.

Lemma single_month_window (i : Z) :
  (1 <= i <= 12)%Z -> months_in_window i 1 = [i].
Proof.
  intros Hi. rewrite months_in_window_spec. unfold Spec.window.
  change (range 0 1) with [0%Z]. cbn [map]. f_equal.
  replace (i + 0 - 1)%Z with (i - 1)%Z by lia.
  rewrite Z.mod_small by lia. lia.
Qed.

(** X19. The tilt chart and the monthly table agree: each optimised
    column of [get_monthly_ghi_data] holds, month by month, the GHI of
    that single month at the tilt [plot_tilt_strategies] plots for the
    arrangement in that month, and so does the flat-panel column. *)
Theorem X19_table_columns_use_the_plotted_tilts
        (self : SolarAnalysis) (sky : string) :
  exists tilts table,
    Viz.plot_tilt_strategies_tilts sky self = (Ok tilts, self)
    /\ Viz.get_monthly_ghi_data sky self = (Ok table, self)
    /\ map Viz.Arr_1 table
       = np.zip_with (fun m t => ghi self (IZR t) [m] sky)
                     (range 1 13) (Viz.tilts_arr1 tilts)
    /\ map Viz.Arr_2 table
       = np.zip_with (fun m t => ghi self t [m] sky)
                     (range 1 13) (Viz.tilts_arr2 tilts)
    /\ map Viz.Arr_3 table
       = np.zip_with (fun m t => ghi self t [m] sky)
                     (range 1 13) (Viz.tilts_arr3 tilts)
    /\ map Viz.Arr_4 table
       = np.zip_with (fun m t => ghi self (IZR t) [m] sky)
                     (range 1 13) (Viz.tilts_arr4 tilts)
    /\ map Viz.Arr_5 table
       = np.zip_with (fun m t => ghi self (IZR t) [m] sky)
                     (range 1 13) (Viz.tilts_arr5 tilts)
    /\ map Viz.Arr_6 table
       = np.zip_with (fun m t => ghi self (IZR t) [m] sky)
                     (range 1 13) (Viz.tilts_arr6 tilts).
Proof.
  do 2 eexists.
  split; [apply plot_tilt_strategies_tilts_run|].
  split; [apply get_monthly_ghi_data_run|].
  cbn [Viz.tilts_arr1 Viz.tilts_arr2 Viz.tilts_arr3
       Viz.tilts_arr4 Viz.tilts_arr5 Viz.tilts_arr6].
  rewrite !map_map.
  change (repeat 0%Z 12) with (map (fun _ : Z => 0%Z) (range 1 13)).
  change (repeat LATITUDE_DEGREES 12)
    with (map (fun _ : Z => LATITUDE_DEGREES) (range 1 13)).
  change (repeat (fst (optimum self (range 1 13) sky)) 12)
    with (map (fun _ : Z => fst (optimum self (range 1 13) sky)) (range 1 13)).
  assert (Hzip : forall (B : Type) (f : Z -> B -> R) (g : Z -> B),
             np.zip_with f (range 1 13) (map g (range 1 13))
             = map (fun m => f m (g m)) (range 1 13)).
  { intros B f g.
    rewrite <- (map_id (range 1 13)) at 1.
    now rewrite (zip_with_map f (fun m => m) g). }
  rewrite !Hzip. cbn [monthly_row Viz.Arr_1 Viz.Arr_2 Viz.Arr_3
                   Viz.Arr_4 Viz.Arr_5 Viz.Arr_6].
  repeat split; apply map_ext; intros m; now destruct (isin m SUMMER_MONTHS).
Qed.

(** X20. With a window of one month the sliding-window analyser
    reproduces the monthly-optimal schedule: its twelve tilts are the
    twelve tilts [plot_tilt_strategies] plots for Arrangement 4, and
    each label names the month twice (["Jan-Jan"] to ["Dec-Dec"]). *)
Theorem X20_one_month_windows_are_the_monthly_schedule
        (self : SolarAnalysis) (sky : string) :
  exists rows tilts,
    analyze_sliding_window 1 sky self = (Ok rows, self)
    /\ Viz.plot_tilt_strategies_tilts sky self = (Ok tilts, self)
    /\ map Optimal_Tilt rows = Viz.tilts_arr4 tilts
    /\ map Window rows
       = map (fun name => (name ++ "-" ++ name)%string) Viz.month_names.
Proof.
  do 2 eexists.
  split; [apply analyze_sliding_window_run; lia|].
  split; [apply plot_tilt_strategies_tilts_run|].
  cbn [Viz.tilts_arr4]. rewrite !map_map. split.
  - apply map_ext_in. intros i Hi. apply in_range in Hi.
    unfold window_row. cbn [Optimal_Tilt].
    now rewrite single_month_window by lia.
  - rewrite range_1_13. cbn [map].
    rewrite !window_row_label by lia. reflexivity.
Qed.

(** X3. On an analyser whose load failed ([self.data] is [None]) the
    engine still answers instead of failing: the calculator returns [0]
    for every tilt, month list and sky condition, [find_optimal_tilt]
    returns tilt [0] with GHI [0], and each of the six arrangement
    analyses returns [0]; the analyser is unchanged. *)
Theorem X3_failed_load_answers_zero
        (self : SolarAnalysis) (t : R) (M : list Z) (sky : string) :
  data self = None ->
  calculate_ghi_for_tilt t M sky self = (Ok 0, self)
  /\ find_optimal_tilt M sky self = (Ok (0%Z, 0), self)
  /\ analyze_arrangement_1 sky self = (Ok 0, self)
  /\ analyze_arrangement_2 sky self = (Ok 0, self)
  /\ analyze_arrangement_3 sky self = (Ok 0, self)
  /\ analyze_arrangement_4 sky self = (Ok 0, self)
  /\ analyze_arrangement_5 sky self = (Ok 0, self)
  /\ analyze_arrangement_6 sky self = (Ok 0, self).
Proof.
  intros Hd.
  assert (Hq : forall months, no_qualifying_record self months sky)
    by (intros months df Hdf; congruence).
  assert (Hg : forall t' months, ghi self t' months sky = 0)
    by (intros; now apply ghi_not_loaded).
  assert (Ho : forall months, optimum self months sky = (0%Z, 0))
    by (intros; now apply optimum_empty_period).
  rewrite calculate_ghi_for_tilt_run, find_optimal_tilt_run,
    analyze_arrangement_1_run, analyze_arrangement_2_run,
    analyze_arrangement_3_run, analyze_arrangement_4_run,
    analyze_arrangement_5_run, analyze_arrangement_6_run.
  rewrite !Hg, !Ho. cbn [snd].
  rewrite (sum_over_ext _ (fun _ => 0)) by (intros m _; now rewrite Ho).
  rewrite sum_over_zero.
  replace (0 + 0) with 0 by lra. repeat split.
Qed.

Lemma X3_witness :
  calculate_ghi_for_tilt 30 [1%Z] "cloudy" not_loaded = (Ok 0, not_loaded)
  /\ find_optimal_tilt [1%Z] "cloudy" not_loaded = (Ok (0%Z, 0), not_loaded)
  /\ analyze_arrangement_1 "cloudy" not_loaded = (Ok 0, not_loaded)
  /\ analyze_arrangement_2 "cloudy" not_loaded = (Ok 0, not_loaded)
  /\ analyze_arrangement_3 "cloudy" not_loaded = (Ok 0, not_loaded)
  /\ analyze_arrangement_4 "cloudy" not_loaded = (Ok 0, not_loaded)
  /\ analyze_arrangement_5 "cloudy" not_loaded = (Ok 0, not_loaded)
  /\ analyze_arrangement_6 "cloudy" not_loaded = (Ok 0, not_loaded).
Proof.
  apply (X3_failed_load_answers_zero not_loaded 30 [1%Z] "cloudy").
  reflexivity.
Defined.

(* ------------------------------------------------------------------ *)
(** ** Rounding: the calculator on IEEE doubles                         *)
(* ------------------------------------------------------------------ *)

(** A beam of zero irradiance contributes [+0.0] whatever the cosine:
    the mask lets through only positive cosines, which are finite. *)
Lemma masked_zero_beam (c : float) :
  (1 <? c)%float = false ->
  (if (0 <? c)%float then (c * 0)%float else 0%float) = 0%float.
Proof.
  intros H1. destruct (0 <? c)%float eqn:H0; [|reflexivity].
  apply Prim2SF_inj. rewrite mul_spec.
  rewrite ltb_spec in H0, H1.
  destruct (Prim2SF c) as [s | s | | s m e].
  - vm_compute in H0. destruct s; discriminate.
  - destruct s; [vm_compute in H0 | vm_compute in H1]; discriminate.
  - vm_compute in H0. discriminate.
  - destruct s; [vm_compute in H0; discriminate | reflexivity].
Qed.

(** On rows without direct beam the array the method sums holds the
    diffuse cells, each plus [+0.0]. *)
Lemma ieee_ghi_output_diffuse
      (libm_cos : float -> float) (dhi_col dni_col : IEEE.Row -> float)
      (theta : float -> float) (rows : list IEEE.Row) :
  IEEE.cos_never_exceeds_one libm_cos ->
  (forall r, In r rows -> dni_col r = 0%float) ->
  np.zip_with PrimFloat.add (map dhi_col rows)
    (np.zip_with (fun (c : bool) x => if c then x else 0%float)
       (map (fun c => (0 <? c)%float)
            (map libm_cos (map theta (map IEEE.Declination_Angle_Rad rows))))
       (np.zip_with PrimFloat.mul
          (map libm_cos (map theta (map IEEE.Declination_Angle_Rad rows)))
          (map dni_col rows)))
  = map (fun r => (dhi_col r + 0)%float) rows.
Proof.
  intros Hcos Hdni. rewrite !map_map.
  rewrite (zip_with_map PrimFloat.mul),
    (zip_with_map (fun (c : bool) x => if c then x else 0%float)),
    (zip_with_map PrimFloat.add).
  apply map_ext_in. intros r Hr. rewrite (Hdni r Hr).
  now rewrite (masked_zero_beam _ (Hcos (theta (IEEE.Declination_Angle_Rad r)))).
Qed.

Lemma ieee_night_then_seven_hours_no_beam sky (r : IEEE.Row) :
  In r (filter (fun r => negb (((if (sky =? "cloudy")%string
                                 then IEEE.DHI else IEEE.Clearsky_DHI) r
                                =? 0)%float
                               && ((if (sky =? "cloudy")%string
                                    then IEEE.DNI else IEEE.Clearsky_DNI) r
                                   =? 0)%float))
               IEEE.night_then_seven_hours)
  \/ In r IEEE.night_then_seven_hours ->
  (if (sky =? "cloudy")%string then IEEE.DNI else IEEE.Clearsky_DNI) r
  = 0%float.
Proof.
  intros [H | H]; [apply filter_In in H; destruct H as [H _]|];
    cbn in H; destruct (sky =? "cloudy")%string;
    repeat (destruct H as [<- | H]; [reflexivity | ]); contradiction.
Qed.

(** What the two variants return on the night hour and seven daylight
    hours, for every cosine routine. *)
Lemma ieee_exclusion_regroups_the_sum (libm_cos : float -> float) :
  IEEE.cos_never_exceeds_one libm_cos ->
  IEEE.calculate_ghi_for_tilt libm_cos (Some IEEE.night_then_seven_hours)
                              30%float [1%Z] "cloudy"
  = 111.89999999999999%float
  /\ IEEE.computeGHI_unfiltered libm_cos (Some IEEE.night_then_seven_hours)
                                30%float [1%Z] "cloudy"
     = 111.9%float.
Proof.
  intros Hcos. split.
  - unfold IEEE.calculate_ghi_for_tilt.
    replace (filter (fun r => isin (IEEE.Month r) [1%Z])
                    IEEE.night_then_seven_hours)
      with IEEE.night_then_seven_hours by reflexivity.
    destruct (filter _ IEEE.night_then_seven_hours) as [|r0 rows] eqn:E;
      [vm_compute in E; discriminate|].
    rewrite (ieee_ghi_output_diffuse libm_cos _ _
               (fun d => (IEEE.LATITUDE_RADIANS - IEEE.radians 30 - d)%float)
               (r0 :: rows) Hcos).
    + rewrite <- E. vm_compute. reflexivity.
    + intros r Hr. apply (ieee_night_then_seven_hours_no_beam "cloudy").
      left. rewrite <- E in Hr. exact Hr.
  - unfold IEEE.computeGHI_unfiltered.
    replace (filter (fun r => isin (IEEE.Month r) [1%Z])
                    IEEE.night_then_seven_hours)
      with IEEE.night_then_seven_hours by reflexivity.
    destruct IEEE.night_then_seven_hours as [|r0 rows] eqn:E;
      [vm_compute in E; discriminate|].
    rewrite (ieee_ghi_output_diffuse libm_cos _ _
               (fun d => (IEEE.LATITUDE_RADIANS - IEEE.radians 30 - d)%float)
               (r0 :: rows) Hcos).
    + rewrite <- E. vm_compute. reflexivity.
    + intros r Hr. apply (ieee_night_then_seven_hours_no_beam "cloudy").
      right. rewrite <- E in Hr. exact Hr.
Qed.

(** C5, as stated, fails on the program's numbers: on a January frame of
    one night hour and seven daylight hours without direct beam, the
    calculator (seven terms, added one after the other) returns
    [111.89999999999999] and the variant that keeps the night hour
    (eight terms, added in numpy's eight interleaved partial sums)
    returns [111.9], for every cosine routine. *)
Lemma C5_counterexample :
  (forall libm_cos, IEEE.cos_never_exceeds_one libm_cos ->
     IEEE.calculate_ghi_for_tilt libm_cos (Some IEEE.night_then_seven_hours)
                                 30%float [1%Z] "cloudy"
     = 111.89999999999999%float
     /\ IEEE.computeGHI_unfiltered libm_cos (Some IEEE.night_then_seven_hours)
                                   30%float [1%Z] "cloudy"
        = 111.9%float)
  /\ (111.89999999999999 =? 111.9)%float = false
  /\ 111.89999999999999%float <> 111.9%float.
Proof.
  split; [exact ieee_exclusion_regroups_the_sum|].
  split; [reflexivity|].
  intros H. apply (f_equal (fun x => (x =? 111.9)%float)) in H.
  vm_compute in H. discriminate.
Qed.

(** Regrouping changes a total: January's hours [0.1] and [0.4] summed,
    then February's [0.2] added, give less than the same three hours
    summed in file order [0.1, 0.2, 0.4].  Totals that add the same hours
    in different groupings are compared in exact arithmetic only. *)
Lemma ieee_regrouping_changes_a_total :
  (IEEE.add_each 0 [IEEE.sum [0.1; 0.4]; IEEE.sum [0.2]]
   <? IEEE.sum [0.1; 0.2; 0.4])%float = true
  /\ IEEE.add_each 0%float [IEEE.sum [0.1; 0.4]; IEEE.sum [0.2]]%float
     = 0.7%float
  /\ IEEE.sum [0.1; 0.2; 0.4]%float = 0.7000000000000001%float.
Proof. repeat split; vm_compute; reflexivity. Qed.
